(** * HackOHire: early-warning dashboard, verified fragments

    A shallow embedding of the client request layer
    ([src/lib/backendApi.ts]), the synthetic data generator
    ([src/lib/mockData.ts]), the derived views of the pages
    ([src/pages/*.tsx]) and the e-mail relay ([server/emailServer.js]).

    Conventions of the embedding:
    - a JavaScript [number] that holds a count, a score or a status code is
      a [Z]; one that holds a probability, a weight or a running value is a
      rational [Q] (exact arithmetic stands for IEEE doubles; NaN and the
      infinities are outside the model);
    - a JavaScript value whose shape is not fixed by a TypeScript type
      (parsed JSON, a request body) is a [Js.value];
    - [process.env] is a [gmap string _]; a React state object used as a
      dictionary is a [gmap string _] of its own properties, and a read
      [obj[k]] that finds no own property falls through to the members of
      [Object.prototype] ([Js.inherited]);
    - [Math.random()] reads the next entry of a draw source [nat -> Q];
    - [console.log] / [console.error] are not modelled. *)

From Stdlib Require Import ZArith QArith Qround Qabs String Ascii List.
From Stdlib Require Import Permutation Sorted Lia Lqa DecimalString.
From stdpp Require Import gmap strings.

Local Open Scope Z_scope.

(** ** JavaScript values *)

Module Js.

(** Values as [JSON.parse] and property reads produce them.  Numeric
    literals are restricted to integers. An object is its property list
    in insertion order, keys pairwise distinct. *)
#[warnings="-register-all"]
Inductive value : Type :=
| Undefined
| Null
| Bool (b : bool)
| Num (n : Z)
| Str (s : string)
| Arr (items : list value)
| Obj (props : list (string * value)).

(** ToBoolean. *)
Definition truthy (v : value) : bool :=
  match v with
  | Undefined | Null => false
  | Bool b => b
  | Num n => negb (n =? 0)
  | Str s => negb (String.eqb s EmptyString)
  | Arr _ | Obj _ => true
  end.

(** [a || b]. *)
Definition or (a b : value) : value := if truthy a then a else b.

Definition string_of_Z (n : Z) : string := NilZero.string_of_int (Z.to_int n).

(** ToString, as a template literal or [String(v)] applies it. *)
Fixpoint toString (v : value) : string :=
  match v with
  | Undefined => "undefined"
  | Null => "null"
  | Bool true => "true"
  | Bool false => "false"
  | Num n => string_of_Z n
  | Str s => s
  | Arr items =>
      (fix join (l : list value) : string :=
         match l with
         | [] => EmptyString
         | x :: rest =>
             let sx := match x with
                       | Undefined | Null => EmptyString
                       | _ => toString x
                       end in
             match rest with
             | [] => sx
             | _ :: _ => sx +:+ "," +:+ join rest
             end
         end) items
  | Obj _ => "[object Object]"
  end.

Fixpoint lookup_prop (k : string) (props : list (string * value)) : value :=
  match props with
  | [] => Undefined
  | (k', v) :: rest => if String.eqb k k' then v else lookup_prop k rest
  end.

(** [v.k] for a [v] that is neither [null] nor [undefined] (reading a
    property of those throws), at the fixed keys this program reads from
    parsed JSON ([detail], [customerId], [customerName], [topSignal],
    [selectedIntervention], [officerNotes]): none of them is a member of a
    prototype, and primitives and arrays have no own property of such a
    name. *)
Definition get (v : value) (k : string) : value :=
  match v with
  | Obj props => lookup_prop k props
  | _ => Undefined
  end.

Definition lower_ascii (c : ascii) : ascii :=
  let n := nat_of_ascii c in
  if ((65 <=? n)%nat && (n <=? 90)%nat)%bool then ascii_of_nat (n + 32) else c.

(** [s.toLowerCase()] on the ASCII letters; other bytes are kept. *)
Fixpoint toLowerCase (s : string) : string :=
  match s with
  | EmptyString => EmptyString
  | String c rest => String (lower_ascii c) (toLowerCase rest)
  end.

Fixpoint repeat_string (n : nat) (s : string) : string :=
  match n with
  | O => EmptyString
  | S n' => s +:+ repeat_string n' s
  end.

(** [s.padStart(width, "0")]. *)
Definition padStart (width : nat) (s : string) : string :=
  repeat_string (width - String.length s) "0" +:+ s.

(** [xs.join(sep)] on an array of strings. *)
Fixpoint join (sep : string) (xs : list string) : string :=
  match xs with
  | [] => EmptyString
  | [x] => x
  | x :: rest => x +:+ sep +:+ join sep rest
  end.

(** [Number.prototype.toFixed(d)] followed by [parseFloat]: the nearest
    multiple of 10^-d, ties away from zero (toFixed rounds the absolute
    value, taking the larger candidate on a tie). *)
Definition roundTo (d : nat) (x : Q) : Q :=
  let scale := inject_Z (10 ^ Z.of_nat d) in
  if Qle_bool 0 x
  then (inject_Z (Qfloor (x * scale + (1 # 2))) / scale)%Q
  else (- (inject_Z (Qfloor ((- x) * scale + (1 # 2))) / scale))%Q.

(** [Math.round]: nearest integer, ties towards +infinity. *)
Definition round (x : Q) : Z := Qfloor (x + (1 # 2)).

(** [Math.max(a, b)]. *)
Definition max (a b : Q) : Q := if Qle_bool a b then b else a.

(** The members every plain object inherits from [Object.prototype]. When an
    object is used as a dictionary, a read [obj[k]] with a computed key [k]
    finds one of them if [obj] has no own property [k]: a function, or the
    prototype object itself for [__proto__]. Each of them is truthy and none
    is a string. *)
Definition Object_prototype_keys : list string :=
  ["constructor"; "hasOwnProperty"; "isPrototypeOf"; "propertyIsEnumerable";
   "toLocaleString"; "toString"; "valueOf"; "__proto__";
   "__defineGetter__"; "__defineSetter__"; "__lookupGetter__"; "__lookupSetter__"].

Definition inherited (k : string) : bool :=
  existsb (String.eqb k) Object_prototype_keys.

(** [xs.sort(cmp)]: the sort is stable, [a] goes before [b] when
    [cmp a b < 0] and the two keep their order when [cmp a b = 0]. For a
    consistent comparator the stable sorted arrangement is unique;
    insertion from the right computes it. *)
Fixpoint insert_sorted {A : Type} (cmp : A -> A -> Q) (x : A) (l : list A) : list A :=
  match l with
  | [] => [x]
  | y :: rest =>
      if Qle_bool (cmp x y) 0 then x :: y :: rest
      else y :: insert_sorted cmp x rest
  end.

Fixpoint sort {A : Type} (cmp : A -> A -> Q) (l : list A) : list A :=
  match l with
  | [] => []
  | x :: rest => insert_sorted cmp x (sort cmp rest)
  end.

End Js.

(** ** The client request layer: src/lib/backendApi.ts *)

Module BackendApi.

Definition API_BASE_URL : string := "http://localhost:8000".
Definition REQUEST_TIMEOUT_MS : Z := 8000.
Definition CUSTOMER_SAMPLE_LIMIT : Z := 200.

(** What a [catch] clause can receive here: an [Error] (or one of its
    subclasses: the TypeError of a failed fetch or of a property read on
    null, the SyntaxError of [response.json()]), or a [DOMException]. *)
Inductive exn : Type :=
| ErrorObj (name message : string)
| DOMException (name message : string).

Definition message (e : exn) : string :=
  match e with
  | ErrorObj _ m => m
  | DOMException _ m => m
  end.

(** [new Error(v)]. *)
Definition newError (v : Js.value) : exn := ErrorObj "Error" (Js.toString v).

(** What the source leaves to the browser: which of the two rejections
    caused by the timer callback reaches [Promise.race] first (the fetch
    promise rejected by [controller.abort()], or the timeout promise
    rejected on the next line), whether a [DOMException] passes
    [instanceof Error] (it does under WebIDL), and the text of the abort
    reason. *)
Record runtime : Type := {
  abort_settles_first : bool;
  dom_exception_is_error : bool;
  abort_reason : string;
}.

Definition instanceof_Error (rt : runtime) (e : exn) : bool :=
  match e with
  | ErrorObj _ _ => true
  | DOMException _ _ => dom_exception_is_error rt
  end.

Definition instanceof_DOMException (e : exn) : bool :=
  match e with
  | ErrorObj _ _ => false
  | DOMException _ _ => true
  end.

Definition name_of (e : exn) : string :=
  match e with
  | ErrorObj n _ => n
  | DOMException n _ => n
  end.

Record Request : Type := {
  url : string;
  method : string;
  headers : list (string * string);
  req_body : option Js.value;   (* the value given to JSON.stringify *)
}.

(** A received response: its status and what [response.json()] gives, the
    parsed body or the message of the SyntaxError. *)
Record Response : Type := {
  status : Z;
  body : Js.value + string;
}.

(** [response.ok]. *)
Definition ok (r : Response) : bool := (200 <=? status r) && (status r <=? 299).

(** What the network does with one request, on the clock that starts when
    [fetch] is called (milliseconds). *)
Inductive network : Type :=
| Responds (at_ms : Z) (r : Response)
| Rejects (at_ms : Z) (e : exn)
| NeverSettles.

Inductive timer : Type := Pending | Fired | Cleared.

(** [clearTimeout]: cancels a pending timer, does nothing to a fired one. *)
Definition clearTimeout (t : timer) : timer :=
  match t with
  | Pending => Cleared
  | Fired => Fired
  | Cleared => Cleared
  end.

(** A settled asynchronous call: its result, when it settled, the state of
    the timeout timer and whether the request was aborted. *)
Record settled (A : Type) : Type := {
  outcome : A + exn;
  settled_at : Z;
  timer_state : timer;
  aborted : bool;
}.
Arguments outcome {A} _.
Arguments settled_at {A} _.
Arguments timer_state {A} _.
Arguments aborted {A} _.

(** The rejection [Promise.race] adopts when the timer callback runs
    [controller.abort(); reject(new Error("REQUEST_TIMEOUT"))]. *)
Definition race_rejection (rt : runtime) : exn :=
  if abort_settles_first rt
  then DOMException "AbortError" (abort_reason rt)
  else ErrorObj "Error" "REQUEST_TIMEOUT".

(** fetchWithTimeout: the fetch races a timer of [REQUEST_TIMEOUT_MS]; the
    [finally] block clears the timer on every path. *)
Definition fetchWithTimeout (rt : runtime) (net : Request -> network)
    (input : Request) : settled Response :=
  let timed_out :=
    {| outcome := inr (race_rejection rt);
       settled_at := REQUEST_TIMEOUT_MS;
       timer_state := clearTimeout Fired;
       aborted := true |} in
  match net input with
  | Responds t r =>
      if t <? REQUEST_TIMEOUT_MS
      then {| outcome := inl r; settled_at := t;
              timer_state := clearTimeout Pending; aborted := false |}
      else timed_out
  | Rejects t e =>
      if t <? REQUEST_TIMEOUT_MS
      then {| outcome := inr e; settled_at := t;
              timer_state := clearTimeout Pending; aborted := false |}
      else timed_out
  | NeverSettles => timed_out
  end.

Definition TIMEOUT_MESSAGE : string :=
  "Backend request timed out. Ensure FastAPI is running on http://localhost:8000".

Definition normalizeFetchError (rt : runtime) (error : exn) (fallback : string) : exn :=
  if instanceof_DOMException error && String.eqb (name_of error) "AbortError"
  then ErrorObj "Error" TIMEOUT_MESSAGE
  else if instanceof_Error rt error && String.eqb (message error) "REQUEST_TIMEOUT"
  then ErrorObj "Error" TIMEOUT_MESSAGE
  else ErrorObj "Error" fallback.

(** [await response.json()]. *)
Definition json (r : Response) : Js.value + exn :=
  match body r with
  | inl v => inl v
  | inr m => inr (ErrorObj "SyntaxError" m)
  end.

Definition http_status_text (r : Response) : string :=
  "HTTP " +:+ Js.string_of_Z (status r).

(** [error.detail] on the parsed error body; the read throws a TypeError
    when the body is [null] (V8's wording of the message). *)
Definition read_detail (error : Js.value) : Js.value + exn :=
  match error with
  | Js.Null =>
      inr (ErrorObj "TypeError" "Cannot read properties of null (reading 'detail')")
  | Js.Undefined =>
      inr (ErrorObj "TypeError" "Cannot read properties of undefined (reading 'detail')")
  | v => inl (Js.get v "detail")
  end.

Definition json_headers : list (string * string) :=
  [("Content-Type", "application/json")].

Definition GET (u : string) : Request :=
  {| url := u; method := "GET"; headers := json_headers; req_body := None |}.

Definition POST (u : string) (b : Js.value) : Request :=
  {| url := u; method := "POST"; headers := json_headers; req_body := Some b |}.

(** The [try] block shared by checkBackendHealth, getCustomerList,
    getPortfolioSummary, getRiskTrend, getFeatureImportance,
    getPortfolioHeatmap and getCustomerRiskList:
    [if (!response.ok) throw new Error(`HTTP ${response.status}`);
     return await response.json();] *)
Definition try_status (fetched : Response + exn) : Js.value + exn :=
  match fetched with
  | inr e => inr e
  | inl response =>
      if negb (ok response)
      then inr (newError (Js.Str (http_status_text response)))
      else json response
  end.

(** The [try] block shared by getCustomerData, predictRisk,
    getCustomerDrilldown and predictAndSendIntervention:
    [if (!response.ok) { const error = await response.json();
       throw new Error(error.detail || `HTTP ${response.status}`); }
     return await response.json();] *)
Definition try_detail (fetched : Response + exn) : Js.value + exn :=
  match fetched with
  | inr e => inr e
  | inl response =>
      if negb (ok response)
      then match json response with
           | inr e => inr e
           | inl error =>
               match read_detail error with
               | inr e => inr e
               | inl detail =>
                   inr (newError (Js.or detail (Js.Str (http_status_text response))))
               end
           end
      else json response
  end.

(** [catch (error) { throw normalizeFetchError(error, fallback); }] *)
Definition catch_normalize (rt : runtime) (fallback : string)
    (r : Js.value + exn) : Js.value + exn :=
  match r with
  | inl v => inl v
  | inr error => inr (normalizeFetchError rt error fallback)
  end.

(** [catch (error) { if (error instanceof Error) throw error;
                     throw normalizeFetchError(error, fallback); }] *)
Definition catch_rethrow (rt : runtime) (fallback : string)
    (r : Js.value + exn) : Js.value + exn :=
  match r with
  | inl v => inl v
  | inr error =>
      if instanceof_Error rt error then inr error
      else inr (normalizeFetchError rt error fallback)
  end.

(** The rest of an operation, run on what fetchWithTimeout settled with.
    [settled_at], [timer_state] and [aborted] are those of fetchWithTimeout:
    they tell when the response (its status line and headers) or the
    rejection arrived. The body is read by [response.json()] after the
    [finally] block has cleared the timer, and no deadline covers that read:
    a [Response] of this model carries its body complete, so [settled_at]
    is the time at which the operation settles only for a body that has
    arrived with the headers. A body that stalls, which keeps the operation
    pending for good, is outside the model; nothing below bounds the time an
    operation takes to read a body. *)
Definition after_fetch (f : settled Response) (k : Response + exn -> Js.value + exn)
    : settled Js.value :=
  {| outcome := k (outcome f);
     settled_at := settled_at f;
     timer_state := timer_state f;
     aborted := aborted f |}.

Section Operations.

Variable rt : runtime.
Variable net : Request -> network.

(** [typeof limit === "number" ? `?limit=${encodeURIComponent(limit)}` : ""] *)
Definition limit_query (limit : option Z) : string :=
  match limit with
  | Some n => "?limit=" +:+ Js.string_of_Z n
  | None => EmptyString
  end.

Definition checkBackendHealth : settled Js.value :=
  after_fetch (fetchWithTimeout rt net (GET (API_BASE_URL +:+ "/")))
    (fun f => catch_normalize rt
       "Unable to connect to backend. Ensure FastAPI server is running on http://localhost:8000"
       (try_status f)).

Definition getCustomerList (limit : option Z) : settled Js.value :=
  after_fetch
    (fetchWithTimeout rt net (GET (API_BASE_URL +:+ "/customers" +:+ limit_query limit)))
    (fun f => catch_normalize rt "Unable to retrieve customer list from backend"
       (try_status f)).

Definition getCustomerData (customerId : string) : settled Js.value :=
  after_fetch
    (fetchWithTimeout rt net (GET (API_BASE_URL +:+ "/customer/" +:+ customerId)))
    (fun f => catch_rethrow rt "Failed to retrieve customer data" (try_detail f)).

Definition predictRisk (customerId : string) : settled Js.value :=
  after_fetch
    (fetchWithTimeout rt net
       (POST (API_BASE_URL +:+ "/predict")
          (Js.Obj [("customer_id", Js.Str customerId)])))
    (fun f => catch_rethrow rt "Prediction failed" (try_detail f)).

Definition getPortfolioSummary : settled Js.value :=
  after_fetch (fetchWithTimeout rt net (GET (API_BASE_URL +:+ "/portfolio/summary")))
    (fun f => catch_normalize rt "Failed to load portfolio summary" (try_status f)).

Definition getRiskTrend : settled Js.value :=
  after_fetch (fetchWithTimeout rt net (GET (API_BASE_URL +:+ "/portfolio/trend")))
    (fun f => catch_normalize rt "Failed to load risk trend data" (try_status f)).

Definition getFeatureImportance : settled Js.value :=
  after_fetch
    (fetchWithTimeout rt net (GET (API_BASE_URL +:+ "/portfolio/feature-importance")))
    (fun f => catch_normalize rt "Failed to load feature importance" (try_status f)).

Definition getPortfolioHeatmap : settled Js.value :=
  after_fetch (fetchWithTimeout rt net (GET (API_BASE_URL +:+ "/portfolio/heatmap")))
    (fun f => catch_normalize rt "Failed to load heatmap data" (try_status f)).

Definition getCustomerRiskList (limit : option Z) : settled Js.value :=
  after_fetch
    (fetchWithTimeout rt net
       (GET (API_BASE_URL +:+ "/customers/risk-list" +:+ limit_query limit)))
    (fun f => catch_normalize rt "Failed to load customer risk list" (try_status f)).

Definition getCustomerDrilldown (customerId : string) : settled Js.value :=
  after_fetch
    (fetchWithTimeout rt net
       (GET (API_BASE_URL +:+ "/customer/" +:+ customerId +:+ "/drilldown")))
    (fun f => catch_rethrow rt "Failed to load customer drilldown" (try_detail f)).

Definition predictAndSendIntervention (customerId : string) : settled Js.value :=
  after_fetch
    (fetchWithTimeout rt net
       (POST (API_BASE_URL +:+ "/predict-and-send-intervention")
          (Js.Obj [("customer_id", Js.Str customerId)])))
    (fun f => catch_rethrow rt "Prediction and intervention failed" (try_detail f)).

End Operations.

(** The exported operations, one constructor per function, so that a
    statement can range over all of them. *)
Inductive operation : Type :=
| CheckBackendHealth
| GetCustomerList (limit : option Z)
| GetCustomerData (customerId : string)
| PredictRisk (customerId : string)
| GetPortfolioSummary
| GetRiskTrend
| GetFeatureImportance
| GetPortfolioHeatmap
| GetCustomerRiskList (limit : option Z)
| GetCustomerDrilldown (customerId : string)
| PredictAndSendIntervention (customerId : string).

Definition call (rt : runtime) (net : Request -> network) (op : operation)
    : settled Js.value :=
  match op with
  | CheckBackendHealth => checkBackendHealth rt net
  | GetCustomerList limit => getCustomerList rt net limit
  | GetCustomerData id => getCustomerData rt net id
  | PredictRisk id => predictRisk rt net id
  | GetPortfolioSummary => getPortfolioSummary rt net
  | GetRiskTrend => getRiskTrend rt net
  | GetFeatureImportance => getFeatureImportance rt net
  | GetPortfolioHeatmap => getPortfolioHeatmap rt net
  | GetCustomerRiskList limit => getCustomerRiskList rt net limit
  | GetCustomerDrilldown id => getCustomerDrilldown rt net id
  | PredictAndSendIntervention id => predictAndSendIntervention rt net id
  end.

(** The operations whose [try] block reads the error body. *)
Definition reads_detail (op : operation) : bool :=
  match op with
  | GetCustomerData _ | PredictRisk _ | GetCustomerDrilldown _
  | PredictAndSendIntervention _ => true
  | _ => false
  end.

(** The fallback text each operation hands to normalizeFetchError. *)
Definition fallback_of (op : operation) : string :=
  match op with
  | CheckBackendHealth =>
      "Unable to connect to backend. Ensure FastAPI server is running on http://localhost:8000"
  | GetCustomerList _ => "Unable to retrieve customer list from backend"
  | GetCustomerData _ => "Failed to retrieve customer data"
  | PredictRisk _ => "Prediction failed"
  | GetPortfolioSummary => "Failed to load portfolio summary"
  | GetRiskTrend => "Failed to load risk trend data"
  | GetFeatureImportance => "Failed to load feature importance"
  | GetPortfolioHeatmap => "Failed to load heatmap data"
  | GetCustomerRiskList _ => "Failed to load customer risk list"
  | GetCustomerDrilldown _ => "Failed to load customer drilldown"
  | PredictAndSendIntervention _ => "Prediction and intervention failed"
  end.

(** The response shapes the pages consume. *)
Inductive RiskLevel : Type := LOW | MEDIUM | HIGH.

Definition RiskLevel_name (c : RiskLevel) : string :=
  match c with
  | LOW => "LOW"
  | MEDIUM => "MEDIUM"
  | HIGH => "HIGH"
  end.

Record CustomerRiskItem : Type := {
  customer_id : string;
  risk_probability : Q;
  risk_category : RiskLevel;
}.

(** [contributing_features] is a [Record<string, number>]; it is kept as
    the list of its properties in the order [Object.entries] lists them. *)
Record CustomerDrilldown : Type := {
  dd_customer_id : string;
  behavioural_score : Q;
  liquidity_score : Q;
  delinquency_probability : Q;
  contributing_features : list (string * Q);
}.

(** *** Sample runtimes and responses, used to run the operations *)

(** A browser that follows the Fetch and WebIDL standards: aborting rejects
    the fetch promise at once, and a DOMException is an Error. *)
Definition standard_runtime : runtime := {|
  abort_settles_first := true;
  dom_exception_is_error := true;
  abort_reason := "signal is aborted without reason";
|}.

(** A runtime in which the timeout promise is the first to reject. *)
Definition timer_first_runtime : runtime := {|
  abort_settles_first := false;
  dom_exception_is_error := true;
  abort_reason := "signal is aborted without reason";
|}.

(** Status 404 with body [{"detail":"not found"}]. *)
Definition not_found : Response := {|
  status := 404;
  body := inl (Js.Obj [("detail", Js.Str "not found")]);
|}.

Definition silent_backend : Request -> network := fun _ => NeverSettles.

End BackendApi.

(** ** The synthetic data generator: src/lib/mockData.ts *)

Module MockData.

Definition firstNames : list string :=
  ["James"; "Sarah"; "Michael"; "Emma"; "David"; "Olivia"; "Robert"; "Sophia";
   "William"; "Isabella"; "John"; "Mia"; "Richard"; "Charlotte"; "Thomas";
   "Amelia"; "Daniel"; "Emily"; "Matthew"; "Abigail"; "Charles"; "Evelyn";
   "Joseph"; "Harper"; "Andrew"; "Ella"; "Christopher"; "Grace"; "George";
   "Victoria"; "Edward"; "Lily"; "Henry"; "Chloe"; "Benjamin"; "Zoe"; "Samuel";
   "Hannah"; "Alexander"; "Aria"; "Nathan"; "Lucy"; "Patrick"; "Nora"; "Simon";
   "Stella"; "Peter"; "Layla"; "Mark"; "Riley"].

Definition lastNames : list string :=
  ["Smith"; "Johnson"; "Williams"; "Brown"; "Jones"; "Garcia"; "Miller"; "Davis";
   "Rodriguez"; "Martinez"; "Hernandez"; "Lopez"; "Gonzalez"; "Wilson";
   "Anderson"; "Thomas"; "Taylor"; "Moore"; "Jackson"; "Martin"; "Lee"; "Perez";
   "Thompson"; "White"; "Harris"; "Sanchez"; "Clark"; "Ramirez"; "Lewis";
   "Robinson"; "Walker"; "Young"; "Allen"; "King"; "Wright"; "Scott"; "Torres";
   "Nguyen"; "Hill"; "Flores"; "Green"; "Adams"; "Nelson"; "Baker"; "Hall";
   "Rivera"; "Campbell"; "Mitchell"; "Carter"; "Roberts"].

Definition signals : list string :=
  ["Salary credit delay shift"; "Savings balance decline";
   "Credit utilization spike"; "ATM withdrawal increase";
   "Missed utility payments"; "Reduced discretionary spending";
   "Overdraft frequency increase"; "Payment pattern irregularity";
   "Balance volatility increase"; "Direct debit bounce"].

Definition interventionTypes : list string :=
  ["Payment holiday offer"; "EMI date shift"; "Temporary EMI reduction";
   "Restructuring discussion"; "Auto-debit retry scheduling"].

Definition officers : list string :=
  ["A. Thompson"; "R. Patel"; "M. Chen"; "S. Williams"; "J. Rodriguez";
   "K. Singh"; "L. Brown"; "D. Wilson"].

(** *** Random draws

    A computation that calls [Math.random()] reads a draw source [src] at a
    cursor and moves the cursor on. *)
Definition Gen (A : Type) : Type := (nat -> Q) -> nat -> A * nat.

#[global] Instance gen_ret : MRet Gen := fun A a _ n => (a, n).
#[global] Instance gen_bind : MBind Gen :=
  fun A B k m src n => let (a, n') := m src n in k a src n'.

(** [Math.random()] *)
Definition random : Gen Q := fun src n => (src n, S n).

(** A draw source as [Math.random] provides it: every draw lies in [0, 1). *)
Definition unit_draws (src : nat -> Q) : Prop :=
  forall n, (0 <= src n)%Q /\ (src n < 1)%Q.

Definition run {A : Type} (m : Gen A) (src : nat -> Q) : A := fst (m src O).

Definition rand (min max : Z) : Gen Z :=
  r ← random;
  mret (Qfloor (r * inject_Z (max - min + 1)) + min).

Definition randFloat (min max : Q) (decimals : nat) : Gen Q :=
  r ← random;
  mret (Js.roundTo decimals (r * (max - min) + min)).

(** [arr[rand(0, arr.length - 1)]]; [undef] stands for the [undefined] of
    an index outside the array. *)
Definition pickRandom {A : Type} (undef : A) (arr : list A) : Gen A :=
  i ← rand 0 (Z.of_nat (length arr) - 1);
  mret (if i <? 0 then undef else nth (Z.to_nat i) arr undef).

(** A date string, kept as the computation the source derives it from: a
    [Date] set to the current time is moved back and formatted with
    [toISOString().split("T")[0]]. The clock, the time zone and the calendar
    are not modelled, so a label records how a string was obtained and not
    which day it names (the move is made in local time and the string is
    read off in UTC; [setMonth] keeps the day of the month and overflows
    into the next month when the target month is shorter).
    - [DaysAgo n]: [new Date(Date.now() - n * 86400000)];
    - [SetDateBack n]: [d.setDate(d.getDate() - n)];
    - [SetMonthBack n]: [d.setMonth(d.getMonth() - n)]. *)
Inductive date : Type :=
| DaysAgo (n : Z)
| SetDateBack (n : Z)
| SetMonthBack (n : Z).

Record point : Type := { pt_date : date; pt_value : Q }.

(** The values of the loop variable of [for (let i = n; i >= 0; i--)],
    counted from the number of iterations. *)
Fixpoint countdown (iterations : nat) : list Z :=
  match iterations with
  | O => []
  | S k => Z.of_nat k :: countdown k
  end.

(** One iteration of the loop of generateTimeSeries: the running value
    moves by the trend and a centred draw, is clamped at zero, and is
    pushed rounded to two decimals. *)
Definition timeSeriesStep (volatility trend : Q) (st : Q * list point) (i : Z)
    : Gen (Q * list point) :=
  let (value, data) := st in
  r ← random;
  let value := (value + (trend + (r - (1 # 2)) * volatility))%Q in
  let value := Js.max 0 value in
  mret (value, data ++ [{| pt_date := SetDateBack i; pt_value := Js.roundTo 2 value |}]).

Fixpoint foldM {A B : Type} (f : A -> B -> Gen A) (a : A) (l : list B) : Gen A :=
  match l with
  | [] => mret a
  | b :: rest => a' ← f a b; foldM f a' rest
  end.

(** generateTimeSeries; [days] is an integer, the loop runs for
    i = days, days - 1, ..., 0 and not at all when days < 0. *)
Definition generateTimeSeries (days : Z) (baseValue volatility trend : Q)
    : Gen (list point) :=
  st ← foldM (timeSeriesStep volatility trend) (baseValue, [])
        (countdown (Z.to_nat (days + 1)));
  mret (snd st).

Inductive RiskCategory : Type := High | Moderate | Low | EarlyStress.
Inductive InterventionStatus : Type := none | offered | accepted | declined.

#[global] Instance RiskCategory_eq_dec : EqDecision RiskCategory.
Proof. solve_decision. Defined.
#[global] Instance InterventionStatus_eq_dec : EqDecision InterventionStatus.
Proof. solve_decision. Defined.

Record InterventionRecord : Type := {
  ir_date : date;
  ir_type : string;
  ir_officerNotes : string;
  ir_status : InterventionStatus;
}.

Inductive direction : Type := positive | negative.
Inductive signalStrength : Type := Strong | ModerateSignal | Weak.
Inductive paymentStatus : Type := on_time | late | missed.

Record shapValue : Type := {
  sv_feature : string; sv_value : Q; sv_direction : direction }.

Record deviation : Type := {
  dv_feature : string; dv_current : Z; dv_baseline : Z; dv_deviation : Q;
  dv_signalStrength : signalStrength }.

Record payment : Type := {
  pay_date : date; pay_amount : Z; pay_status : paymentStatus }.

Record Customer : Type := {
  id : string;
  name : string;
  email : string;
  age : Z;
  accountType : string;
  riskScore : Z;
  riskCategory : RiskCategory;
  topSignal : string;
  interventionStatus : InterventionStatus;
  interventionHistory : list InterventionRecord;
  officerAssigned : string;
  monthlyIncome : Z;
  outstandingBalance : Z;
  creditUtilization : Q;
  savingsBalance : Z;
  riskScoreTrend : list point;
  savingsBalanceTrend : list point;
  salaryDelayTrend : list point;
  creditUtilizationTrend : list point;
  atmWithdrawalTrend : list point;
  shapValues : list shapValue;
  deviations : list deviation;
  paymentHistory : list payment;
  originationScore : Z;
  daysPastDue : Z;
  liquidityStressIndex : Q;
}.

Definition getRiskCategory (score : Z) : RiskCategory :=
  if 75 <=? score then High
  else if 50 <=? score then Moderate
  else if 30 <=? score then EarlyStress
  else Low.

Definition interventionStatuses : list InterventionStatus :=
  [none; none; none; offered; accepted; declined].

Definition accountTypes : list string :=
  ["Personal Loan"; "Mortgage"; "Credit Card"; "Auto Loan"; "Overdraft"].

(** The entry of paymentHistory for index [i] of [Array.from({ length: 12 })]. *)
Definition generatePayment (riskScore : Z) (i : Z) : Gen payment :=
  let statuses :=
    if 60 <? riskScore
    then [on_time; on_time; late; late; missed]
    else [on_time; on_time; on_time; on_time; late] in
  amount ← rand 200 1500;
  status ← pickRandom on_time statuses;
  mret {| pay_date := SetMonthBack (11 - i); pay_amount := amount; pay_status := status |}.

Definition direction_of (b : bool) : direction := if b then positive else negative.

(** generateCustomer. The draws are taken in the order in which the source
    evaluates its calls; [randFloat] is used with its default of two
    decimals. *)
Definition generateCustomer (index : Z) : Gen Customer :=
  firstName ← pickRandom EmptyString firstNames;
  lastName ← pickRandom EmptyString lastNames;
  riskScore ← rand 5 98;
  let riskCategory := getRiskCategory riskScore in
  topSignal ← pickRandom EmptyString signals;
  interventionStatus ←
    (if 50 <? riskScore then pickRandom none interventionStatuses else mret none);
  monthlyIncome ← rand 2000 12000;
  creditUtil ← randFloat 0.1 0.95 2;
  savBal ← rand 500 50000;
  history ←
    (if decide (interventionStatus = none) then mret []
     else
       daysBack ← rand 1 30;
       type ← pickRandom EmptyString interventionTypes;
       mret [{| ir_date := DaysAgo daysBack;
                ir_type := type;
                ir_officerNotes := "Initial review conducted. Customer contacted.";
                ir_status := interventionStatus |}]);
  shap1 ← randFloat (-0.3) 0.8 2;
  shap2 ← randFloat (-0.2) 0.7 2;
  shap3 ← randFloat (-0.4) 0.6 2;
  shap4 ← randFloat (-0.3) 0.5 2;
  shap5 ← randFloat (-0.6) 0.3 2;
  shap6 ← randFloat (-0.2) 0.4 2;
  shap7 ← randFloat (-0.3) 0.5 2;
  shap8 ← randFloat (-0.5) 0.2 2;
  let shapFeatures :=
    [ {| sv_feature := "Salary Credit Delay"; sv_value := shap1;
         sv_direction := direction_of (50 <? riskScore) |};
      {| sv_feature := "Savings Decline Rate"; sv_value := shap2;
         sv_direction := direction_of (40 <? riskScore) |};
      {| sv_feature := "Credit Utilization"; sv_value := shap3;
         sv_direction := direction_of (negb (Qle_bool creditUtil 0.6)) |};
      {| sv_feature := "ATM Withdrawal Freq"; sv_value := shap4;
         sv_direction := direction_of (60 <? riskScore) |};
      {| sv_feature := "Payment Regularity"; sv_value := shap5;
         sv_direction := direction_of (50 <? riskScore) |};
      {| sv_feature := "Balance Volatility"; sv_value := shap6;
         sv_direction := direction_of (45 <? riskScore) |};
      {| sv_feature := "Overdraft Usage"; sv_value := shap7;
         sv_direction := direction_of (55 <? riskScore) |};
      {| sv_feature := "Discretionary Spend"; sv_value := shap8;
         sv_direction := negative |} ] in
  dev1cur ← rand 1 15;
  dev1base ← rand 1 5;
  dev1 ← randFloat 0 10 2;
  dev2extra ← rand 1000 5000;
  dev2 ← randFloat (-40) (-5) 2;
  dev3base ← rand 20 40;
  dev3 ← randFloat 5 50 2;
  dev4cur ← rand 5 25;
  dev4base ← rand 3 8;
  dev4 ← randFloat 10 80 2;
  dev5cur ← rand 0 4;
  dev5 ← randFloat 0 100 2;
  let deviations :=
    [ {| dv_feature := "Salary Credit Day"; dv_current := dev1cur;
         dv_baseline := dev1base; dv_deviation := dev1;
         dv_signalStrength :=
           if 60 <? riskScore then Strong
           else if 40 <? riskScore then ModerateSignal else Weak |};
      {| dv_feature := "Savings Balance (£)"; dv_current := savBal;
         dv_baseline := savBal + dev2extra; dv_deviation := dev2;
         dv_signalStrength := if 50 <? riskScore then Strong else ModerateSignal |};
      {| dv_feature := "Credit Utilization (%)";
         dv_current := Js.round (creditUtil * 100);
         dv_baseline := dev3base; dv_deviation := dev3;
         dv_signalStrength :=
           if negb (Qle_bool creditUtil 0.7) then Strong else Weak |};
      {| dv_feature := "ATM Withdrawals/Month"; dv_current := dev4cur;
         dv_baseline := dev4base; dv_deviation := dev4;
         dv_signalStrength := if 55 <? riskScore then ModerateSignal else Weak |};
      {| dv_feature := "Missed Payments (90d)"; dv_current := dev5cur;
         dv_baseline := 0; dv_deviation := dev5;
         dv_signalStrength := if 65 <? riskScore then Strong else Weak |} ] in
  paymentHistory ← mapM (generatePayment riskScore) (map Z.of_nat (seq 0 12));
  age ← rand 22 68;
  accountType ← pickRandom EmptyString accountTypes;
  officerAssigned ← pickRandom EmptyString officers;
  outstandingBalance ← rand 5000 200000;
  riskBack ← rand 5 20;
  riskScoreTrend ←
    generateTimeSeries 60 (inject_Z (riskScore - riskBack)) 3
      (if 50 <? riskScore then 0.15 else -0.05);
  savExtra ← rand 2000 8000;
  savingsBalanceTrend ←
    generateTimeSeries 60 (inject_Z (savBal + savExtra)) 500
      (if 50 <? riskScore then -80 else 20);
  salaryBase ← rand 0 3;
  salaryDelayTrend ←
    generateTimeSeries 60 (inject_Z salaryBase) 1.5
      (if 50 <? riskScore then 0.05 else 0);
  utilBack ← rand 5 15;
  creditUtilizationTrend ←
    generateTimeSeries 60 (creditUtil * 100 - inject_Z utilBack) 3
      (if 50 <? riskScore then 0.2 else -0.05);
  atmBase ← rand 5 10;
  atmWithdrawalTrend ←
    generateTimeSeries 60 (inject_Z atmBase) 2
      (if 55 <? riskScore then 0.1 else 0);
  originationScore ← rand 300 850;
  daysPastDue ← (if 60 <? riskScore then rand 0 30 else mret 0);
  liquidityStressIndex ← randFloat 0 1 2;
  mret {|
    id := "CUS-" +:+ Js.padStart 5 (Js.string_of_Z (index + 1));
    name := firstName +:+ " " +:+ lastName;
    email := Js.toLowerCase firstName +:+ "." +:+ Js.toLowerCase lastName
             +:+ "@email.com";
    age := age;
    accountType := accountType;
    riskScore := riskScore;
    riskCategory := riskCategory;
    topSignal := topSignal;
    interventionStatus := interventionStatus;
    interventionHistory := history;
    officerAssigned := officerAssigned;
    monthlyIncome := monthlyIncome;
    outstandingBalance := outstandingBalance;
    creditUtilization := creditUtil;
    savingsBalance := savBal;
    riskScoreTrend := riskScoreTrend;
    savingsBalanceTrend := savingsBalanceTrend;
    salaryDelayTrend := salaryDelayTrend;
    creditUtilizationTrend := creditUtilizationTrend;
    atmWithdrawalTrend := atmWithdrawalTrend;
    shapValues := shapFeatures;
    deviations := deviations;
    paymentHistory := paymentHistory;
    originationScore := originationScore;
    daysPastDue := daysPastDue;
    liquidityStressIndex := liquidityStressIndex;
  |}.

(** [Array.from({ length: 120 }, (_, i) => generateCustomer(i))], the first
    use of [Math.random] when the module is loaded. *)
Definition customers_gen : Gen (list Customer) :=
  mapM generateCustomer (map Z.of_nat (seq 0 120)).

Definition customers (src : nat -> Q) : list Customer := run customers_gen src.

End MockData.

(** ** Derived views of the pages: src/pages *)

Module Pages.

Import BackendApi.

(** *** ExplainabilityPage: the label shown for a delinquency probability *)
Definition getDelinquencyRiskLevel (probability : Q) : string :=
  let pct := (probability * 100)%Q in
  if Qle_bool 75 pct then "High Risk"
  else if Qle_bool 40 pct then "Medium Risk"
  else "Low Risk".

(** *** AlertsPage *)
Inductive InterventionStatus : Type := none | offered | accepted | declined.

Definition InterventionStatus_name (s : InterventionStatus) : string :=
  match s with
  | none => "none"
  | offered => "offered"
  | accepted => "accepted"
  | declined => "declined"
  end.

(** What a read of the status dictionary evaluates to: one of the four
    statuses, or the member of [Object.prototype] the key names. *)
Inductive statusValue : Type :=
| Status (s : InterventionStatus)
| Inherited (key : string).

Coercion Status : InterventionStatus >-> statusValue.

(** [interventionStatuses[c.customer_id] || "none"]. The state object holds
    the statuses set so far as own properties (the map); every status is a
    non-empty string, hence truthy. Without an own property the read gives
    the inherited member when the id names one (truthy, so it is the
    result), and [undefined] otherwise, which [||] replaces by ["none"]. *)
Definition getStatus (interventionStatuses : gmap string InterventionStatus)
    (c : CustomerRiskItem) : statusValue :=
  match interventionStatuses !! customer_id c with
  | Some s => Status s
  | None =>
      if Js.inherited (customer_id c) then Inherited (customer_id c)
      else Status none
  end.

Definition above_alert_threshold (c : CustomerRiskItem) : bool :=
  Qle_bool 0.3 (risk_probability c).

(** [riskFilter === "all" || c.risk_category === riskFilter] *)
Definition matches_risk (riskFilter : string) (c : CustomerRiskItem) : bool :=
  String.eqb riskFilter "all" || String.eqb (RiskLevel_name (risk_category c)) riskFilter.

(** [status === statusFilter]: an inherited member is not a string and is
    strictly equal to no filter value. *)
Definition status_is (status : statusValue) (statusFilter : string) : bool :=
  match status with
  | Status s => String.eqb (InterventionStatus_name s) statusFilter
  | Inherited _ => false
  end.

(** [statusFilter === "all" || status === statusFilter], with
    [status = getStatus(c)]. *)
Definition matches_status (interventionStatuses : gmap string InterventionStatus)
    (statusFilter : string) (c : CustomerRiskItem) : bool :=
  String.eqb statusFilter "all"
  || status_is (getStatus interventionStatuses c) statusFilter.

(** [(a, b) => b.risk_probability - a.risk_probability] *)
Definition by_probability_desc (a b : CustomerRiskItem) : Q :=
  (risk_probability b - risk_probability a)%Q.

Definition alertCustomers (customers : list CustomerRiskItem)
    (riskFilter statusFilter : string)
    (interventionStatuses : gmap string InterventionStatus) : list CustomerRiskItem :=
  List.filter (matches_status interventionStatuses statusFilter)
    (List.filter (matches_risk riskFilter)
       (Js.sort by_probability_desc
          (List.filter above_alert_threshold customers))).

(** *** RiskExplorerPage *)
Record featureImpact : Type := { feature : string; value : Q }.

(** [(a, b) => Math.abs(b.value) - Math.abs(a.value)] *)
Definition by_abs_value_desc (a b : featureImpact) : Q :=
  (Qabs (value b) - Qabs (value a))%Q.

Definition contributingSeries (drilldown : option CustomerDrilldown)
    : list featureImpact :=
  match drilldown with
  | None => []
  | Some d =>
      Js.sort by_abs_value_desc
        (map (fun '(f, v) => {| feature := f; value := v |})
           (contributing_features d))
  end.

End Pages.

(** ** The e-mail relay: server/emailServer.js *)

Module EmailServer.

(** A truthy string: defined and not empty. *)
Definition truthy_string (o : option string) : bool :=
  match o with
  | Some s => negb (String.eqb s EmptyString)
  | None => false
  end.

(** [a || b] on possibly undefined strings. *)
Definition or_string (a b : option string) : option string :=
  if truthy_string a then a else b.

(** [Number(s)] for [s] a decimal integer literal; [None] is NaN. The
    strings that JavaScript reads as a number in another notation (a
    fraction part, an exponent, a hexadecimal literal, blanks around the
    digits) are outside the model and read as [None] too; only the port of
    the transport depends on it. *)
Definition Number (s : string) : option Z :=
  option_map Z.of_int (NilZero.int_of_string s).

Record auth : Type := { user : option string; pass : option string }.

Record smtpConfig_t : Type := {
  host : option string;
  port : option Z;
  secure : bool;
  auth_of : auth;
  from : option string;
}.

Record transportOptions : Type := {
  t_host : option string;
  t_port : option Z;
  t_secure : bool;
  t_auth : auth;
}.

Record mail : Type := {
  m_from : option string;
  m_to : string;
  m_subject : string;
  m_text : string;
  m_html : string;
}.

(** What [await transporter.sendMail(...)] can do: return an info object
    (of which only [messageId] is read), throw an [Error], or throw some
    other value. *)
Inductive sendResult : Type :=
| Sent (messageId : Js.value)
| ThrowsError (message : string)
| ThrowsOther.

Inductive responseBody : Type :=
| Text (s : string)
| Json (v : Js.value).

Record httpResponse : Type := { status : Z; body : responseBody }.

(** What one request leaves behind: the response and the calls made to
    [sendMail], oldest first. *)
Record handled : Type := {
  response : httpResponse;
  sendMail_calls : list (transportOptions * mail);
}.

Definition nl : string := String (ascii_of_nat 10) EmptyString.
Definition dq : string := String (ascii_of_nat 34) EmptyString.

Section Relay.

(** [process.env] *)
Variable env : gmap string string.

(** The SMTP provider behind nodemailer. *)
Variable provider : transportOptions -> mail -> sendResult.

Definition EMAIL_SERVER_PORT : option Z :=
  match or_string (env !! "EMAIL_SERVER_PORT") None with
  | Some s => Number s
  | None => Some 8081
  end.

Definition FIXED_TO_ADDRESS : string :=
  match or_string (env !! "FIXED_TO_ADDRESS") (Some "sohamjagushte2@gmail.com") with
  | Some s => s
  | None => "sohamjagushte2@gmail.com"
  end.

Definition smtpConfig : smtpConfig_t := {|
  host := env !! "SMTP_HOST";
  port := match or_string (env !! "SMTP_PORT") None with
          | Some s => Number s
          | None => Some 587
          end;
  secure := bool_decide (env !! "SMTP_SECURE" = Some "true");
  auth_of := {| user := env !! "SMTP_USER"; pass := env !! "SMTP_PASS" |};
  from := or_string (env !! "SMTP_FROM") (env !! "SMTP_USER");
|}.

Definition hasMissingSmtpConfig : bool :=
  negb (truthy_string (host smtpConfig))
  || negb (truthy_string (user (auth_of smtpConfig)))
  || negb (truthy_string (pass (auth_of smtpConfig)))
  || negb (truthy_string (from smtpConfig)).

(** The plain-text body: the array of lines, [.filter(Boolean)] (which
    drops [undefined] and the empty strings), [.join("\n")]. *)
Definition text_of (customerName topSignal selectedIntervention officerNotes : Js.value)
    : string :=
  let lines : list (option string) :=
    [ Some ("Dear " +:+ Js.toString customerName +:+ ",");
      Some EmptyString;
      Some "We have noticed some changes in your financial activity and would like to offer support.";
      Some ("Our analysis indicates potential financial stress signals related to "
            +:+ Js.toLowerCase (Js.toString topSignal) +:+ ".");
      Some EmptyString;
      Some ("We would like to offer you the following support option: "
            +:+ Js.toString selectedIntervention +:+ ".");
      Some EmptyString;
      Some "Please contact your relationship manager to discuss this further.";
      Some "We are here to help you manage your finances effectively.";
      Some EmptyString;
      Some "Kind regards,";
      Some "Financial Support Team";
      (if Js.truthy officerNotes then Some EmptyString else None);
      (if Js.truthy officerNotes
       then Some ("Officer Notes: " +:+ Js.toString officerNotes) else None) ] in
  Js.join nl
    (omap (fun l => match l with
                    | Some s => if String.eqb s EmptyString then None else Some s
                    | None => None
                    end) lines).

(** The HTML body: the template literal after [.trim()], which removes the
    line break and indentation before [<div] and after [</div>]. *)
Definition html_of (customerName topSignal selectedIntervention officerNotes : Js.value)
    : string :=
  Js.join nl
    [ "<div style=" +:+ dq
        +:+ "font-family: Arial, sans-serif; color: #111; line-height: 1.5;"
        +:+ dq +:+ ">";
      "      <p>Dear " +:+ Js.toString customerName +:+ ",</p>";
      "      <p>";
      "        We have noticed some changes in your financial activity and would like to offer support.";
      "        Our analysis indicates potential financial stress signals related to";
      "        <strong>" +:+ Js.toLowerCase (Js.toString topSignal) +:+ "</strong>.";
      "      </p>";
      "      <p>";
      "        We would like to offer you the following support option:";
      "        <strong>" +:+ Js.toString selectedIntervention +:+ "</strong>.";
      "      </p>";
      "      <p>";
      "        Please contact your relationship manager to discuss this further.";
      "        We are here to help you manage your finances effectively.";
      "      </p>";
      "      <p>Kind regards,<br />Financial Support Team</p>";
      "      " +:+ (if Js.truthy officerNotes
                    then "<p><strong>Officer Notes:</strong> "
                         +:+ Js.toString officerNotes +:+ "</p>"
                    else EmptyString);
      "    </div>" ].

(** The route handler of [POST /api/send-intervention] alone: the callback
    run on a request that the body parser has passed on, with
    [req.body = reqBody] ([Js.Undefined] when the parser left the body
    unparsed). What the server does with a request, parser included, is
    [app] below. *)
Definition sendIntervention (reqBody : Js.value) : handled :=
  if hasMissingSmtpConfig
  then {| response := {| status := 500; body := Text "Missing SMTP configuration in .env" |};
          sendMail_calls := [] |}
  else
    let fields := Js.or reqBody (Js.Obj []) in
    let customerId := Js.get fields "customerId" in
    let customerName := Js.get fields "customerName" in
    let topSignal := Js.get fields "topSignal" in
    let selectedIntervention := Js.get fields "selectedIntervention" in
    let officerNotes := Js.get fields "officerNotes" in
    if negb (Js.truthy customerId) || negb (Js.truthy customerName)
       || negb (Js.truthy topSignal) || negb (Js.truthy selectedIntervention)
    then {| response := {| status := 400; body := Text "Missing required email fields" |};
            sendMail_calls := [] |}
    else
      let subject := "Support Options Available — " +:+ Js.toString customerId in
      let text := text_of customerName topSignal selectedIntervention officerNotes in
      let html := html_of customerName topSignal selectedIntervention officerNotes in
      let transporter :=
        {| t_host := host smtpConfig;
           t_port := port smtpConfig;
           t_secure := secure smtpConfig || bool_decide (port smtpConfig = Some 465);
           t_auth := auth_of smtpConfig |} in
      let message :=
        {| m_from := from smtpConfig; m_to := FIXED_TO_ADDRESS;
           m_subject := subject; m_text := text; m_html := html |} in
      let calls := [(transporter, message)] in
      match provider transporter message with
      | Sent messageId =>
          {| response :=
               {| status := 200;
                  body := Json (Js.Obj [("messageId", messageId);
                                        ("to", Js.Str FIXED_TO_ADDRESS)]) |};
             sendMail_calls := calls |}
      | ThrowsError m =>
          {| response := {| status := 500; body := Text m |};
             sendMail_calls := calls |}
      | ThrowsOther =>
          {| response := {| status := 500; body := Text "SMTP send failed" |};
             sendMail_calls := calls |}
      end.

End Relay.

(** *** The application: [express.json()] in front of the handler

    [app.use(express.json())] runs before the route handler on every
    request. express is a library and not part of this repository; its body
    parser is taken by what it hands on:
    - [Passed reqBody]: the request reaches the handler with
      [req.body = reqBody], which is the parsed JSON text for a request of
      Content-Type application/json whose body is within the parser's limit
      (100 kB, the default, which the call keeps), and a body left unparsed
      ([undefined] or [{}]) for another Content-Type or an empty body;
    - [Refused code page]: the parser fails, with status 413 for a body
      over the limit, 400 for text that is not JSON, 415 for an unsupported
      charset or encoding, and express answers with that status and an
      error page of its own; the handler is not run. *)
Inductive parsed : Type :=
| Passed (reqBody : Js.value)
| Refused (code : Z) (page : string).

Section App.

(** An incoming request, headers and raw body. *)
Variable Req : Type.

Variable express_json : Req -> parsed.
Variable env : gmap string string.
Variable provider : transportOptions -> mail -> sendResult.

(** What a POST to /api/send-intervention leaves behind. *)
Definition app (req : Req) : handled :=
  match express_json req with
  | Passed reqBody => sendIntervention env provider reqBody
  | Refused code page =>
      {| response := {| status := code; body := Text page |};
         sendMail_calls := [] |}
  end.

End App.

Arguments app {Req} express_json env provider req.

(** *** A sample configuration and request, used to run the handler *)

Definition sample_env : gmap string string :=
  list_to_map [("SMTP_HOST", "smtp.example.com"); ("SMTP_USER", "relay@example.com");
               ("SMTP_PASS", "secret")].


(** The sample request without its [selectedIntervention]. *)
Definition request_without_intervention : Js.value :=
  Js.Obj [("customerId", Js.Str "CUST-7"); ("customerName", Js.Str "Ada");
          ("topSignal", Js.Str "Savings Decline")].


Definition accepting_provider : transportOptions -> mail -> sendResult :=
  fun _ _ => Sent (Js.Str "<id-1@relay.example.com>").


(** The fields a request must carry. *)
Definition required_fields : list string :=
  ["customerId"; "customerName"; "topSignal"; "selectedIntervention"].

(** Sample requests of Content-Type application/json: the size of the body
    in bytes and the value its text parses to. *)
Record jsonRequest : Type := { byteLength : Z; content : Js.value }.

(** The limit of [express.json()], 100 kB. *)
Definition JSON_LIMIT : Z := 102400.

(** [express.json()] with its default options on the sample requests. *)
Definition default_json (req : jsonRequest) : parsed :=
  if JSON_LIMIT <? byteLength req
  then Refused 413 "PayloadTooLargeError: request entity too large"
  else Passed (content req).


Definition post_without_intervention : jsonRequest :=
  {| byteLength := 74; content := request_without_intervention |}.



(** The same without [selectedIntervention]. *)
Definition oversized_post_without_intervention : jsonRequest :=
  {| byteLength := 120092;
     content :=
       Js.Obj [("customerId", Js.Str "CUST-7"); ("customerName", Js.Str "Ada");
               ("topSignal", Js.Str "Savings Decline");
               ("officerNotes", Js.Str (Js.repeat_string (Z.to_nat 120000) "x"))] |}.

End EmailServer.

(** ** Vocabulary of the statements *)

Module Spec.

Import BackendApi MockData Pages.

(** The bucketing of a probability in the words of the specification:
    LOW below 0.40, MEDIUM from 0.40 and below 0.70, HIGH from 0.70. It is
    written from the specification, not from the code, to be compared with
    what the code computes. *)
Definition bucketing (p : Q) : RiskLevel :=
  if Qle_bool 0.7 p then HIGH
  else if Qle_bool 0.4 p then MEDIUM
  else LOW.

(** The order a comparator [(a, b) => key(b) - key(a)] asks for. *)
Definition descending {A : Type} (key : A -> Q) (a b : A) : Prop :=
  (key b <= key a)%Q.

(** The entries of a series, back as (name, weight) pairs. *)
Definition entries_of (series : list featureImpact) : list (string * Q) :=
  map (fun e => (feature e, value e)) series.

(** The intervention status of a customer in the words of the page: the
    status last set for the customer, [none] (shown as Pending) while none
    was set. *)
Definition recorded_status (interventionStatuses : gmap string InterventionStatus)
    (c : CustomerRiskItem) : InterventionStatus :=
  default none (interventionStatuses !! customer_id c).

(** The rows of the alerts table in the words of the claim: at or above
    0.3, of the risk category selected (or any, under "all"), and in the
    intervention status selected (or any, under "all"). It is written from
    the claim, not from the code, to be compared with what the code keeps. *)
Definition claimed_row (riskFilter statusFilter : string)
    (interventionStatuses : gmap string InterventionStatus)
    (c : CustomerRiskItem) : bool :=
  Qle_bool 0.3 (risk_probability c)
  && (String.eqb riskFilter "all"
      || String.eqb (RiskLevel_name (risk_category c)) riskFilter)
  && (String.eqb statusFilter "all"
      || String.eqb (InterventionStatus_name (recorded_status interventionStatuses c))
           statusFilter).

(** The three tests of the code's filters, taken together. *)
Definition listed (riskFilter statusFilter : string)
    (interventionStatuses : gmap string InterventionStatus)
    (c : CustomerRiskItem) : bool :=
  above_alert_threshold c
  && matches_risk riskFilter c
  && matches_status interventionStatuses statusFilter c.

(** [gen_post ok P m]: on every draw source accepted by [ok], and from
    every cursor, the value [m] returns satisfies [P]. *)
Definition gen_post {A : Type} (ok : (nat -> Q) -> Prop) (P : A -> Prop)
    (m : Gen A) : Prop :=
  forall src n, ok src -> P (fst (m src n)).

(** Any draw source at all. *)
Definition any_draws (src : nat -> Q) : Prop := True.

(** What the loop keeps true of (value, data) after [k] iterations. *)
Definition walk_inv (k : nat) (st : Q * list point) : Prop :=
  length (snd st) = k /\ Forall (fun p => (0 <= pt_value p)%Q) (snd st).

End Spec.

(** ** More of the JavaScript library *)

Module JsMore.

(** [Math.min(a, b)]. *)
Definition min (a b : Q) : Q := if Qle_bool a b then a else b.

(** [xs.slice(0, n)]. *)
Definition slice0 {A : Type} (n : nat) (xs : list A) : list A := firstn n xs.

End JsMore.

(** ** The rest of src/lib/mockData.ts: what the module computes when loaded *)

Module MockDataInit.

Import MockData.

Record portfolioMetrics_t : Type := {
  totalCustomers : Z;
  highRisk : Z;
  moderateRisk : Z;
  earlyStress : Z;
  lowRisk : Z;
}.

(** [customers.filter(c => c.riskCategory === cat).length] *)
Definition count_category (cat : RiskCategory) (cs : list Customer) : Z :=
  Z.of_nat (length (List.filter (fun c => bool_decide (riskCategory c = cat)) cs)).

Definition portfolioMetrics (customers : list Customer) : portfolioMetrics_t := {|
  totalCustomers := Z.of_nat (length customers);
  highRisk := count_category High customers;
  moderateRisk := count_category Moderate customers;
  earlyStress := count_category EarlyStress customers;
  lowRisk := count_category Low customers;
|}.

Record weekPoint : Type := {
  wk_week : string;
  wk_date : date;
  wk_high : Z;
  wk_moderate : Z;
  wk_earlyStress : Z;
  wk_low : Z;
}.

(** The element of weeklyRiskTrend for index [i] of
    [Array.from({ length: 12 })]. *)
Definition generateWeek (i : Z) : Gen weekPoint :=
  high ← rand 15 35;
  moderate ← rand 20 40;
  earlyStress ← rand 10 25;
  low ← rand 30 50;
  mret {| wk_week := "W" +:+ Js.string_of_Z (i + 1);
          wk_date := SetDateBack ((11 - i) * 7);
          wk_high := high; wk_moderate := moderate;
          wk_earlyStress := earlyStress; wk_low := low |}.

Definition weeklyRiskTrend_gen : Gen (list weekPoint) :=
  mapM generateWeek (map Z.of_nat (seq 0 12)).

Record slice : Type := { sl_name : string; sl_value : Z; sl_fill : string }.

Definition riskDistribution (m : portfolioMetrics_t) : list slice :=
  [ {| sl_name := "High"; sl_value := highRisk m; sl_fill := "hsl(0, 72%, 51%)" |};
    {| sl_name := "Moderate"; sl_value := moderateRisk m; sl_fill := "hsl(38, 92%, 50%)" |};
    {| sl_name := "Early Stress"; sl_value := earlyStress m; sl_fill := "hsl(224, 76%, 48%)" |};
    {| sl_name := "Low"; sl_value := lowRisk m; sl_fill := "hsl(142, 72%, 37%)" |} ].

Record cohortRow : Type := {
  ch_cohort : string;
  bucket0_30 : Z;
  bucket30_50 : Z;
  bucket50_75 : Z;
  bucket75_100 : Z;
}.

Definition cohortRow_gen (cohort : string) (r0 r1 r2 r3 : Z * Z) : Gen cohortRow :=
  b0 ← rand (fst r0) (snd r0);
  b1 ← rand (fst r1) (snd r1);
  b2 ← rand (fst r2) (snd r2);
  b3 ← rand (fst r3) (snd r3);
  mret {| ch_cohort := cohort; bucket0_30 := b0; bucket30_50 := b1;
          bucket50_75 := b2; bucket75_100 := b3 |}.

Definition cohortHeatmapData_gen : Gen (list cohortRow) :=
  q1 ← cohortRow_gen "Q1 2024" (60, 90) (15, 30) (5, 15) (2, 8);
  q2 ← cohortRow_gen "Q2 2024" (55, 85) (18, 35) (8, 18) (3, 10);
  q3 ← cohortRow_gen "Q3 2024" (50, 80) (20, 38) (10, 20) (4, 12);
  q4 ← cohortRow_gen "Q4 2024" (45, 78) (22, 40) (12, 22) (5, 14);
  q5 ← cohortRow_gen "Q1 2025" (48, 82) (20, 35) (8, 18) (3, 10);
  mret [q1; q2; q3; q4; q5].

(** The shape of backendApi's RiskTrendPoint. *)
Record trendPoint : Type := {
  tp_week : string;
  avg_risk_score : Q;
  delinquency_probability : Q;
}.

(** The element of mockRiskTrend for index [i]: the variation is drawn
    first, the average score second. *)
Definition generateMockTrendPoint (i : Z) : Gen trendPoint :=
  let baseValue := 25%Q in
  r ← random;
  let variation := ((r - 0.5) * 8)%Q in
  let delinquencyProb :=
    (Js.max 20 (JsMore.min 30 (baseValue + variation)) / 100)%Q in
  avg ← randFloat 48 52 1;
  mret {| tp_week := "W" +:+ Js.string_of_Z (i + 1);
          avg_risk_score := avg;
          delinquency_probability := Js.roundTo 3 delinquencyProb |}.

Definition mockRiskTrend_gen : Gen (list trendPoint) :=
  mapM generateMockTrendPoint (map Z.of_nat (seq 0 12)).

(** What the module exports hold once it is loaded; the draws are taken in
    the order of the top-level statements. *)
Record exports : Type := {
  ex_customers : list Customer;
  ex_portfolioMetrics : portfolioMetrics_t;
  ex_weeklyRiskTrend : list weekPoint;
  ex_riskDistribution : list slice;
  ex_cohortHeatmapData : list cohortRow;
  ex_mockRiskTrend : list trendPoint;
}.

Definition load_gen : Gen exports :=
  cs ← customers_gen;
  let metrics := portfolioMetrics cs in
  weekly ← weeklyRiskTrend_gen;
  cohorts ← cohortHeatmapData_gen;
  trend ← mockRiskTrend_gen;
  mret {| ex_customers := cs;
          ex_portfolioMetrics := metrics;
          ex_weeklyRiskTrend := weekly;
          ex_riskDistribution := riskDistribution metrics;
          ex_cohortHeatmapData := cohorts;
          ex_mockRiskTrend := trend |}.

Definition load (src : nat -> Q) : exports := run load_gen src.

End MockDataInit.

(** ** What a generated record satisfies *)

Module Inv.

Import MockData.

(** [q] is a multiple of 10^-d. *)
Definition on_grid (d : nat) (q : Q) : bool :=
  let scale := inject_Z (10 ^ Z.of_nat d) in
  Qeq_bool (inject_Z (Qfloor (q * scale)) / scale) q.

(** The id, name and e-mail address of the customer generated for [index]. *)
Definition identity_ok (index : Z) (c : Customer) : Prop :=
  id c = "CUS-" +:+ Js.padStart 5 (Js.string_of_Z (index + 1))
  /\ exists first last,
       In first firstNames /\ In last lastNames
       /\ name c = first +:+ " " +:+ last
       /\ email c = Js.toLowerCase first +:+ "." +:+ Js.toLowerCase last +:+ "@email.com".

Definition ranges_ok (c : Customer) : Prop :=
  22 <= age c <= 68
  /\ 2000 <= monthlyIncome c <= 12000
  /\ 5000 <= outstandingBalance c <= 200000
  /\ 500 <= savingsBalance c <= 50000
  /\ 300 <= originationScore c <= 850
  /\ 0 <= daysPastDue c <= 30
  /\ (riskScore c <= 60 -> daysPastDue c = 0)
  /\ (0.1 <= creditUtilization c)%Q /\ (creditUtilization c <= 0.95)%Q
  /\ (0 <= liquidityStressIndex c)%Q /\ (liquidityStressIndex c <= 1)%Q.

Definition intervention_ok (c : Customer) : Prop :=
  (interventionStatus c <> none -> 50 < riskScore c)
  /\ (interventionStatus c = none -> interventionHistory c = [])
  /\ (interventionStatus c <> none ->
      exists r k,
        interventionHistory c = [r]
        /\ ir_status r = interventionStatus c
        /\ In (ir_type r) interventionTypes
        /\ ir_date r = DaysAgo k /\ 1 <= k <= 30).

(** A trend generated with [days = 60]: 61 points, none negative. *)
Definition trend_ok (series : list point) : Prop :=
  length series = 61%nat
  /\ Forall (fun p => (0 <= pt_value p)%Q) series.

Definition trends_ok (c : Customer) : Prop :=
  trend_ok (riskScoreTrend c)
  /\ trend_ok (savingsBalanceTrend c)
  /\ trend_ok (salaryDelayTrend c)
  /\ trend_ok (creditUtilizationTrend c)
  /\ trend_ok (atmWithdrawalTrend c).

Definition payment_ok (riskScore : Z) (p : payment) : Prop :=
  200 <= pay_amount p <= 1500
  /\ (riskScore <= 60 -> pay_status p <> missed).

Definition payments_ok (c : Customer) : Prop :=
  length (paymentHistory c) = 12%nat
  /\ Forall (payment_ok (riskScore c)) (paymentHistory c).

Definition customer_ok (index : Z) (c : Customer) : Prop :=
  identity_ok index c /\ ranges_ok c /\ intervention_ok c /\ trends_ok c
  /\ payments_ok c.

(** A point of mockRiskTrend for index [i]. *)
Definition mockTrendPoint_ok (i : Z) (p : MockDataInit.trendPoint) : Prop :=
  MockDataInit.tp_week p = "W" +:+ Js.string_of_Z (i + 1)
  /\ (0.2 <= MockDataInit.delinquency_probability p)%Q
  /\ (MockDataInit.delinquency_probability p <= 0.3)%Q
  /\ (48 <= MockDataInit.avg_risk_score p)%Q
  /\ (MockDataInit.avg_risk_score p <= 52)%Q.

End Inv.

(** ** AlertsPage: state and handlers (src/pages/AlertsPage.tsx) *)

Module AlertsPage.

Import BackendApi Pages.

Definition FIXED_TO_EMAIL : string := "sohamjagushte2@gmail.com".

Definition interventionOptions : list string :=
  ["Payment holiday offer"; "EMI date shift"; "Temporary EMI reduction";
   "Restructuring discussion"; "Auto-debit retry scheduling"].

Inductive toastKind : Type := toast_success | toast_error | toast_info.

(** A call to [toast.success / error / info]. *)
Record toast : Type := {
  t_kind : toastKind;
  t_title : string;
  t_description : option string;
}.

(** The [useState] cells of the component, and the toasts raised so far
    (oldest first). *)
Record state : Type := {
  riskFilter : string;
  statusFilter : string;
  expandedId : option string;
  emailModalOpen : bool;
  selectedCustomer : option CustomerRiskItem;
  drilldownMap : gmap string CustomerDrilldown;
  selectedIntervention : string;
  officerNotes : string;
  interventionStatuses : gmap string InterventionStatus;
  isSending : bool;
  customers : list CustomerRiskItem;
  loading : bool;
  error : option string;
  toasts : list toast;
}.

Definition initial : state := {|
  riskFilter := "all";
  statusFilter := "all";
  expandedId := None;
  emailModalOpen := false;
  selectedCustomer := None;
  drilldownMap := ∅;
  selectedIntervention := "Payment holiday offer";
  officerNotes := EmptyString;
  interventionStatuses := ∅;
  isSending := false;
  customers := [];
  loading := true;
  error := None;
  toasts := [];
|}.

Definition set_interventionStatuses (f : gmap string InterventionStatus ->
                                         gmap string InterventionStatus)
    (st : state) : state := {|
  riskFilter := riskFilter st; statusFilter := statusFilter st;
  expandedId := expandedId st; emailModalOpen := emailModalOpen st;
  selectedCustomer := selectedCustomer st; drilldownMap := drilldownMap st;
  selectedIntervention := selectedIntervention st; officerNotes := officerNotes st;
  interventionStatuses := f (interventionStatuses st);
  isSending := isSending st; customers := customers st; loading := loading st;
  error := error st; toasts := toasts st;
|}.

Definition set_emailModalOpen (b : bool) (st : state) : state := {|
  riskFilter := riskFilter st; statusFilter := statusFilter st;
  expandedId := expandedId st; emailModalOpen := b;
  selectedCustomer := selectedCustomer st; drilldownMap := drilldownMap st;
  selectedIntervention := selectedIntervention st; officerNotes := officerNotes st;
  interventionStatuses := interventionStatuses st;
  isSending := isSending st; customers := customers st; loading := loading st;
  error := error st; toasts := toasts st;
|}.

Definition set_officerNotes (s : string) (st : state) : state := {|
  riskFilter := riskFilter st; statusFilter := statusFilter st;
  expandedId := expandedId st; emailModalOpen := emailModalOpen st;
  selectedCustomer := selectedCustomer st; drilldownMap := drilldownMap st;
  selectedIntervention := selectedIntervention st; officerNotes := s;
  interventionStatuses := interventionStatuses st;
  isSending := isSending st; customers := customers st; loading := loading st;
  error := error st; toasts := toasts st;
|}.

Definition set_isSending (b : bool) (st : state) : state := {|
  riskFilter := riskFilter st; statusFilter := statusFilter st;
  expandedId := expandedId st; emailModalOpen := emailModalOpen st;
  selectedCustomer := selectedCustomer st; drilldownMap := drilldownMap st;
  selectedIntervention := selectedIntervention st; officerNotes := officerNotes st;
  interventionStatuses := interventionStatuses st;
  isSending := b; customers := customers st; loading := loading st;
  error := error st; toasts := toasts st;
|}.

Definition set_drilldownMap (f : gmap string CustomerDrilldown ->
                                 gmap string CustomerDrilldown)
    (st : state) : state := {|
  riskFilter := riskFilter st; statusFilter := statusFilter st;
  expandedId := expandedId st; emailModalOpen := emailModalOpen st;
  selectedCustomer := selectedCustomer st; drilldownMap := f (drilldownMap st);
  selectedIntervention := selectedIntervention st; officerNotes := officerNotes st;
  interventionStatuses := interventionStatuses st;
  isSending := isSending st; customers := customers st; loading := loading st;
  error := error st; toasts := toasts st;
|}.

Definition set_expandedId (o : option string) (st : state) : state := {|
  riskFilter := riskFilter st; statusFilter := statusFilter st;
  expandedId := o; emailModalOpen := emailModalOpen st;
  selectedCustomer := selectedCustomer st; drilldownMap := drilldownMap st;
  selectedIntervention := selectedIntervention st; officerNotes := officerNotes st;
  interventionStatuses := interventionStatuses st;
  isSending := isSending st; customers := customers st; loading := loading st;
  error := error st; toasts := toasts st;
|}.

Definition set_error (o : option string) (st : state) : state := {|
  riskFilter := riskFilter st; statusFilter := statusFilter st;
  expandedId := expandedId st; emailModalOpen := emailModalOpen st;
  selectedCustomer := selectedCustomer st; drilldownMap := drilldownMap st;
  selectedIntervention := selectedIntervention st; officerNotes := officerNotes st;
  interventionStatuses := interventionStatuses st;
  isSending := isSending st; customers := customers st; loading := loading st;
  error := o; toasts := toasts st;
|}.

Definition set_customers (cs : list CustomerRiskItem) (st : state) : state := {|
  riskFilter := riskFilter st; statusFilter := statusFilter st;
  expandedId := expandedId st; emailModalOpen := emailModalOpen st;
  selectedCustomer := selectedCustomer st; drilldownMap := drilldownMap st;
  selectedIntervention := selectedIntervention st; officerNotes := officerNotes st;
  interventionStatuses := interventionStatuses st;
  isSending := isSending st; customers := cs; loading := loading st;
  error := error st; toasts := toasts st;
|}.

Definition set_loading (b : bool) (st : state) : state := {|
  riskFilter := riskFilter st; statusFilter := statusFilter st;
  expandedId := expandedId st; emailModalOpen := emailModalOpen st;
  selectedCustomer := selectedCustomer st; drilldownMap := drilldownMap st;
  selectedIntervention := selectedIntervention st; officerNotes := officerNotes st;
  interventionStatuses := interventionStatuses st;
  isSending := isSending st; customers := customers st; loading := b;
  error := error st; toasts := toasts st;
|}.

Definition raise_toast (t : toast) (st : state) : state := {|
  riskFilter := riskFilter st; statusFilter := statusFilter st;
  expandedId := expandedId st; emailModalOpen := emailModalOpen st;
  selectedCustomer := selectedCustomer st; drilldownMap := drilldownMap st;
  selectedIntervention := selectedIntervention st; officerNotes := officerNotes st;
  interventionStatuses := interventionStatuses st;
  isSending := isSending st; customers := customers st; loading := loading st;
  error := error st; toasts := toasts st ++ [t];
|}.

Definition set_selectedCustomer (o : option CustomerRiskItem) (st : state) : state := {|
  riskFilter := riskFilter st; statusFilter := statusFilter st;
  expandedId := expandedId st; emailModalOpen := emailModalOpen st;
  selectedCustomer := o; drilldownMap := drilldownMap st;
  selectedIntervention := selectedIntervention st; officerNotes := officerNotes st;
  interventionStatuses := interventionStatuses st;
  isSending := isSending st; customers := customers st; loading := loading st;
  error := error st; toasts := toasts st;
|}.

Definition set_statusFilter (s : string) (st : state) : state := {|
  riskFilter := riskFilter st; statusFilter := s;
  expandedId := expandedId st; emailModalOpen := emailModalOpen st;
  selectedCustomer := selectedCustomer st; drilldownMap := drilldownMap st;
  selectedIntervention := selectedIntervention st; officerNotes := officerNotes st;
  interventionStatuses := interventionStatuses st;
  isSending := isSending st; customers := customers st; loading := loading st;
  error := error st; toasts := toasts st;
|}.

(** The "Send Offer to Customer" button of a row. *)
Definition openEmailModal (c : CustomerRiskItem) (st : state) : state :=
  set_emailModalOpen true (set_selectedCustomer (Some c) st).

(** The rows of the alerts table in a state. *)
Definition alertRows (st : state) : list CustomerRiskItem :=
  alertCustomers (customers st) (riskFilter st) (statusFilter st)
    (interventionStatuses st).

(** [err instanceof Error ? err.message : fallback] *)
Definition message_or (rt : runtime) (fallback : string) (err : exn) : string :=
  if instanceof_Error rt err then message err else fallback.

(** The mount effect, run to completion: [fetched] is what
    getCustomerRiskList settled with, [isMounted] the flag when it did. *)
Definition loadCustomers (rt : runtime) (fetched : list CustomerRiskItem + exn)
    (isMounted : bool) (st : state) : state :=
  let st := set_error None (set_loading true st) in
  if negb isMounted then st
  else
    let st := match fetched with
              | inl response => set_customers response st
              | inr err => set_error (Some (message_or rt "Failed to load customers" err)) st
              end in
    set_loading false st.

(** [Object.keys(features)[0]]; [None] is [undefined]. *)
Definition first_key (features : list (string * Q)) : option string :=
  match features with
  | [] => None
  | (k, _) :: _ => Some k
  end.

(** [drilldownMap[customerId]?.contributing_features]: a member inherited
    from [Object.prototype] has no such property, so an id without an own
    entry reads as [undefined] here whatever it names. *)
Definition getTopSignal (st : state) (customerId : string) : option string :=
  match drilldownMap st !! customerId with
  | Some d => first_key (contributing_features d)
  | None => Some "Loading"
  end.

(** The guard [if (drilldownMap[customerId])]: a stored drilldown is an
    object, hence truthy, and so is the member of [Object.prototype] that
    the read finds when the id names one and nothing is stored for it. *)
Definition has_drilldown (st : state) (customerId : string) : bool :=
  match drilldownMap st !! customerId with
  | Some _ => true
  | None => Js.inherited customerId
  end.

(** ensureDrilldown, run to completion. [fetchDrilldown] is the awaited
    getCustomerDrilldown; the second component lists the ids it was called
    with. *)
Definition ensureDrilldown (rt : runtime)
    (fetchDrilldown : string -> CustomerDrilldown + exn)
    (customerId : string) (st : state) : state * list string :=
  if has_drilldown st customerId then (st, [])
  else
    match fetchDrilldown customerId with
    | inl detail =>
        (set_drilldownMap (fun prev => <[customerId := detail]> prev) st,
         [customerId])
    | inr err =>
        (set_error (Some (message_or rt "Failed to load drilldown" err)) st,
         [customerId])
    end.

(** The click handler of a table row. *)
Definition clickRow (rt : runtime)
    (fetchDrilldown : string -> CustomerDrilldown + exn)
    (c : CustomerRiskItem) (st : state) : state * list string :=
  let nextId :=
    if bool_decide (expandedId st = Some (customer_id c)) then None
    else Some (customer_id c) in
  let st := set_expandedId nextId st in
  match nextId with
  | Some i =>
      if String.eqb i EmptyString then (st, [])
      else ensureDrilldown rt fetchDrilldown i st
  | None => (st, [])
  end.

(** What the page sees of the relay's answer: [response.ok], the text of a
    response that is not ok, or the rejection of [fetch]. *)
Inductive fetched : Type :=
| RespondedOk
| RespondedError (errorText : string)
| FetchRejected (e : exn).

(** The object handed to [JSON.stringify]; a property whose value is
    [undefined] is left out, as on the wire. *)
Definition offerBody (st : state) (c : CustomerRiskItem) : Js.value :=
  let topSignal :=
    match drilldownMap st !! customer_id c with
    | Some d => first_key (contributing_features d)
    | None => Some "N/A"
    end in
  Js.Obj
    ([("customerId", Js.Str (customer_id c));
      ("customerName", Js.Str (customer_id c))]
     ++ match topSignal with
        | Some s => [("topSignal", Js.Str s)]
        | None => []
        end
     ++ [("selectedIntervention", Js.Str (selectedIntervention st));
         ("officerNotes", Js.Str (officerNotes st))]).

(** handleSendOffer, run to completion; the second component lists the
    bodies posted to /api/send-intervention. *)
Definition handleSendOffer (rt : runtime) (post : Js.value -> fetched)
    (st : state) : state * list Js.value :=
  match selectedCustomer st with
  | None => (st, [])
  | Some c =>
      if isSending st then (st, [])
      else
        let body := offerBody st c in
        let failed message :=
          raise_toast {| t_kind := toast_error;
                         t_title := "Unable to send intervention email";
                         t_description := Some message |} st in
        let st' :=
          match post body with
          | RespondedOk =>
              raise_toast
                {| t_kind := toast_success;
                   t_title := "Intervention offer sent to " +:+ customer_id c;
                   t_description :=
                     Some ("Type: " +:+ selectedIntervention st +:+ " · To: "
                           +:+ FIXED_TO_EMAIL) |}
                (set_officerNotes EmptyString
                   (set_emailModalOpen false
                      (set_interventionStatuses
                         (fun prev => <[customer_id c := offered]> prev) st)))
          | RespondedError errorText =>
              failed (if String.eqb errorText EmptyString
                      then "Email send failed" else errorText)
          | FetchRejected e => failed (message_or rt "Email send failed" e)
          end in
        (set_isSending false st', [body])
  end.

Definition handleMarkReviewed (customer : CustomerRiskItem) (st : state) : state :=
  raise_toast
    {| t_kind := toast_info;
       t_title := customer_id customer +:+ " marked as reviewed — no action taken.";
       t_description := None |}
    (set_interventionStatuses (fun prev => <[customer_id customer := none]> prev) st).

(** The relay seen from the page: the answer of the handler to the posted
    body. [stringify] stands for the JSON text of a JSON answer, which the
    page reads only from an answer that is not ok. *)
Definition relayAnswer (stringify : Js.value -> string)
    (r : EmailServer.httpResponse) : fetched :=
  if (200 <=? EmailServer.status r) && (EmailServer.status r <=? 299)
  then RespondedOk
  else RespondedError
         match EmailServer.body r with
         | EmailServer.Text s => s
         | EmailServer.Json v => stringify v
         end.

(** *** A sample page state, used to run the handlers *)

Definition sample_customer : CustomerRiskItem :=
  {| customer_id := "CUST-7"; risk_probability := 0.82; risk_category := HIGH |}.

Definition other_customer : CustomerRiskItem :=
  {| customer_id := "CUST-9"; risk_probability := 0.41; risk_category := MEDIUM |}.

(** The page after the list has loaded and the modal was opened for the
    sample customer. *)
Definition sample_state : state :=
  openEmailModal sample_customer
    (set_loading false (set_customers [other_customer; sample_customer] initial)).

Definition sample_drilldown : CustomerDrilldown := {|
  dd_customer_id := "CUST-7";
  behavioural_score := 0.6;
  liquidity_score := 0.4;
  delinquency_probability := 0.82;
  contributing_features := [("Salary_Delay_Days", 0.31%Q); ("Savings_Drop_%", 0.12%Q)];
|}.


End AlertsPage.

(** ** ExplainabilityPage *)

Module ExplainabilityPage.

Import BackendApi Pages.

Definition getBehaviouralRiskLevel (score : Q) : string :=
  if Qle_bool 70 score then "Strong"
  else if Qle_bool 40 score then "Moderate"
  else "Weak".

Definition getLiquidityStabilityLevel (score : Q) : string :=
  if Qle_bool 70 score then "Strong Stability"
  else if Qle_bool 40 score then "Moderate Stability"
  else "Low Stability".

Definition flagged (c : CustomerRiskItem) : bool := Qle_bool 0.5 (risk_probability c).

Definition topFlagged (customers : list CustomerRiskItem) : list CustomerRiskItem :=
  JsMore.slice0 20 (Js.sort by_probability_desc (List.filter flagged customers)).

End ExplainabilityPage.

(** ** DashboardPage *)

Module DashboardPage.

Import MockDataInit.

(** The PortfolioSummary of backendApi. *)
Record PortfolioSummary : Type := {
  low_risk_count : Z;
  medium_risk_count : Z;
  high_risk_count : Z;
  total_customers : Z;
  generated_at : string;
}.

Definition riskDistribution (summary : option PortfolioSummary) : list slice :=
  match summary with
  | None => []
  | Some s =>
      [ {| sl_name := "Low"; sl_value := low_risk_count s; sl_fill := "hsl(142, 72%, 37%)" |};
        {| sl_name := "Medium"; sl_value := medium_risk_count s; sl_fill := "hsl(38, 92%, 50%)" |};
        {| sl_name := "High"; sl_value := high_risk_count s; sl_fill := "hsl(0, 72%, 51%)" |} ]
  end.

Definition gaugeData (summary : option PortfolioSummary) : list (string * Z) :=
  match summary with
  | None => []
  | Some s =>
      [ ("Healthy", low_risk_count s + medium_risk_count s);
        ("At Risk", high_risk_count s) ]
  end.

Record pctPoint : Type := { pp_week : string; delinquency_probability_pct : Q }.

(** [Number((point.delinquency_probability * 100).toFixed(1))] per point. *)
Definition trendWithPercentages (trend : list trendPoint) : list pctPoint :=
  map (fun point =>
         {| pp_week := tp_week point;
            delinquency_probability_pct :=
              Js.roundTo 1 (delinquency_probability point * 100) |})
      trend.

End DashboardPage.

(** ** PortfolioDriftPage *)

Module PortfolioDriftPage.

Import DashboardPage.

(** [summary?.total_customers || 1] *)
Definition total_or_1 (summary : option PortfolioSummary) : Z :=
  match summary with
  | Some s => if total_customers s =? 0 then 1 else total_customers s
  | None => 1
  end.

(** [val / Math.max(1, summary?.total_customers || 1)] *)
Definition intensity (val : Z) (summary : option PortfolioSummary) : Q :=
  (inject_Z val / Js.max 1 (inject_Z (total_or_1 summary)))%Q.

(** The alpha of a heatmap cell: [Math.max(0.1, intensity)]. *)
Definition cellAlpha (val : Z) (summary : option PortfolioSummary) : Q :=
  Js.max 0.1 (intensity val summary).

End PortfolioDriftPage.

(** * Properties *)

(** ** [Array.prototype.sort] *)

Import Spec.

Lemma insert_sorted_Permutation {A : Type} (cmp : A -> A -> Q) (x : A) (l : list A) :
  Permutation (Js.insert_sorted cmp x l) (x :: l).
Proof.
  induction l as [|y rest IH]; simpl.
  - apply Permutation_refl.
  - destruct (Qle_bool (cmp x y) 0).
    + apply Permutation_refl.
    + eapply Permutation_trans; [apply perm_skip, IH | apply perm_swap].
Qed.

Lemma sort_Permutation {A : Type} (cmp : A -> A -> Q) (l : list A) :
  Permutation (Js.sort cmp l) l.
Proof.
  induction l as [|x rest IH]; simpl.
  - apply perm_nil.
  - eapply Permutation_trans; [apply insert_sorted_Permutation|].
    now apply perm_skip.
Qed.

Lemma descending_trans {A : Type} (key : A -> Q) :
  Relations_1.Transitive (descending key).
Proof.
  intros a b c Hab Hbc. unfold descending in *.
  eapply Qle_trans; eassumption.
Qed.

Lemma insert_sorted_HdRel {A : Type} (cmp : A -> A -> Q) (R : A -> A -> Prop)
    (a x : A) (l : list A) :
  R a x -> HdRel R a l -> HdRel R a (Js.insert_sorted cmp x l).
Proof.
  intros Hax Hl. destruct l as [|y rest]; simpl.
  - now constructor.
  - destruct (Qle_bool (cmp x y) 0); constructor; auto.
    now inversion Hl.
Qed.

Lemma insert_sorted_Sorted {A : Type} (cmp : A -> A -> Q) (key : A -> Q)
    (Hcmp : forall a b, (cmp a b == key b - key a)%Q) (x : A) (l : list A) :
  Sorted (descending key) l -> Sorted (descending key) (Js.insert_sorted cmp x l).
Proof.
  induction l as [|y rest IH]; simpl; intros Hs.
  - repeat constructor.
  - destruct (Qle_bool (cmp x y) 0) eqn:Hle.
    + constructor; [exact Hs|]. constructor.
      apply Qle_bool_iff in Hle. rewrite Hcmp in Hle.
      unfold descending. lra.
    + inversion Hs as [|? ? Hrest Hhd]; subst.
      constructor; [now apply IH|].
      apply insert_sorted_HdRel; [|exact Hhd].
      unfold descending.
      destruct (Qlt_le_dec (key x) (key y)) as [Hlt|Hge]; [now apply Qlt_le_weak|].
      assert (Hc : (cmp x y <= 0)%Q) by (rewrite Hcmp; lra).
      apply Qle_bool_iff in Hc. congruence.
Qed.

Lemma sort_Sorted {A : Type} (cmp : A -> A -> Q) (key : A -> Q)
    (Hcmp : forall a b, (cmp a b == key b - key a)%Q) (l : list A) :
  Sorted (descending key) (Js.sort cmp l).
Proof.
  induction l as [|x rest IH]; simpl.
  - constructor.
  - now apply insert_sorted_Sorted.
Qed.

Lemma filter_Permutation_compat {A : Type} (f : A -> bool) (l l' : list A) :
  Permutation l l' -> Permutation (List.filter f l) (List.filter f l').
Proof.
  induction 1 as [|x l l' _ IH|x y l|l l' l'' _ IH1 _ IH2]; simpl.
  - apply perm_nil.
  - destruct (f x); [now apply perm_skip | exact IH].
  - destruct (f x), (f y); try apply Permutation_refl. apply perm_swap.
  - eapply Permutation_trans; eassumption.
Qed.

Lemma filter_StronglySorted {A : Type} (R : A -> A -> Prop) (f : A -> bool)
    (l : list A) :
  StronglySorted R l -> StronglySorted R (List.filter f l).
Proof.
  induction 1 as [|x l Hl IH Hall]; simpl.
  - constructor.
  - destruct (f x); [|exact IH].
    constructor; [exact IH|].
    apply List.Forall_forall. intros y Hy.
    apply List.filter_In in Hy as [Hy _].
    rewrite List.Forall_forall in Hall. now apply Hall.
Qed.

Lemma filter_filter_andb {A : Type} (f g : A -> bool) (l : list A) :
  List.filter f (List.filter g l) = List.filter (fun x => g x && f x) l.
Proof.
  induction l as [|x l IH]; simpl; [reflexivity|].
  destruct (g x); simpl; [destruct (f x)|]; now rewrite ?IH.
Qed.

(** ** Derived views *)

Section DerivedViews.

Import BackendApi Pages.

Lemma by_abs_value_desc_key (a b : featureImpact) :
  (by_abs_value_desc a b == Qabs (value b) - Qabs (value a))%Q.
Proof. reflexivity. Qed.

Lemma by_probability_desc_key (a b : CustomerRiskItem) :
  (by_probability_desc a b == risk_probability b - risk_probability a)%Q.
Proof. reflexivity. Qed.

(** C9. The contributing-features series of a fetched drilldown is
    computed from its [contributing_features] alone: it holds exactly the
    entries of that map (as a permutation, so with nothing added, dropped
    or repeated), and every entry has an absolute value at least that of the
    entry after it. *)
Theorem C9_contributingSeries_sorted_entries (d : CustomerDrilldown) :
  Permutation (entries_of (contributingSeries (Some d))) (contributing_features d)
  /\ Sorted (fun a b => (Qabs (value a) >= Qabs (value b))%Q)
       (contributingSeries (Some d)).
Proof.
  split.
  - unfold contributingSeries, entries_of.
    eapply Permutation_trans.
    + apply Permutation_map, sort_Permutation.
    + rewrite List.map_map.
      erewrite List.map_ext; [rewrite List.map_id; apply Permutation_refl|].
      now intros [f v].
  - unfold contributingSeries.
    apply (sort_Sorted by_abs_value_desc (fun e => Qabs (value e))).
    exact by_abs_value_desc_key.
Qed.

(** Before a drilldown has arrived the series is empty. *)
Lemma contributingSeries_no_drilldown : contributingSeries None = [].
Proof. reflexivity. Qed.

Lemma status_is_iff (status : statusValue) (statusFilter : string) :
  status_is status statusFilter = true
  <-> exists s, status = Status s /\ InterventionStatus_name s = statusFilter.
Proof.
  destruct status as [s|k]; cbn [status_is].
  - rewrite String.eqb_eq. split.
    + intros H. now exists s.
    + intros (s' & E & H). now inversion E; subst.
  - split; [discriminate|]. intros (s' & E & _). discriminate E.
Qed.

(** [listed] in terms of the data: at or above 0.3, of the category asked
    for (or any, under "all"), and with a status read from the dictionary
    that is the one asked for (or any). *)
Lemma listed_iff (riskFilter statusFilter : string)
    (interventionStatuses : gmap string InterventionStatus) (c : CustomerRiskItem) :
  listed riskFilter statusFilter interventionStatuses c = true
  <-> (0.3 <= risk_probability c)%Q
      /\ (riskFilter = "all" \/ RiskLevel_name (risk_category c) = riskFilter)
      /\ (statusFilter = "all"
          \/ exists s, getStatus interventionStatuses c = Status s
                       /\ InterventionStatus_name s = statusFilter).
Proof.
  unfold listed, above_alert_threshold, matches_risk, matches_status.
  rewrite !andb_true_iff, !orb_true_iff, Qle_bool_iff, !String.eqb_eq, status_is_iff.
  tauto.
Qed.

(** Where the read of the dictionary is the recorded status: at every id
    that has an own entry or is not the name of an inherited member. *)
Lemma getStatus_recorded (interventionStatuses : gmap string InterventionStatus)
    (c : CustomerRiskItem) :
  Js.inherited (customer_id c) = false
  \/ is_Some (interventionStatuses !! customer_id c) ->
  getStatus interventionStatuses c = Status (recorded_status interventionStatuses c).
Proof.
  unfold getStatus, recorded_status.
  destruct (interventionStatuses !! customer_id c) as [s|]; [reflexivity|].
  intros [Hown | [s Hs]]; [|discriminate Hs].
  now rewrite Hown.
Qed.

Lemma listed_claimed_row (riskFilter statusFilter : string)
    (interventionStatuses : gmap string InterventionStatus) (c : CustomerRiskItem) :
  Js.inherited (customer_id c) = false
  \/ is_Some (interventionStatuses !! customer_id c) ->
  listed riskFilter statusFilter interventionStatuses c
  = claimed_row riskFilter statusFilter interventionStatuses c.
Proof.
  intros H. unfold listed, claimed_row, above_alert_threshold, matches_risk,
    matches_status.
  now rewrite (getStatus_recorded _ _ H).
Qed.

Lemma alertCustomers_filter_sort customers riskFilter statusFilter
    (interventionStatuses : gmap string InterventionStatus) :
  alertCustomers customers riskFilter statusFilter interventionStatuses
  = List.filter
      (fun c => matches_risk riskFilter c
                && matches_status interventionStatuses statusFilter c)
      (Js.sort by_probability_desc (List.filter above_alert_threshold customers)).
Proof. unfold alertCustomers. apply filter_filter_andb. Qed.

(** Whatever the two filters are set to, the alerts table holds exactly
    the fetched customers that pass the three tests of the code (a
    permutation of them), in order of descending risk_probability; no
    customer below 0.3 is in it. *)
Lemma alertCustomers_filtered_sorted (customers : list CustomerRiskItem)
    (riskFilter statusFilter : string)
    (interventionStatuses : gmap string InterventionStatus) :
  let table := alertCustomers customers riskFilter statusFilter interventionStatuses in
  Permutation table
    (List.filter (listed riskFilter statusFilter interventionStatuses) customers)
  /\ Sorted (fun a b => (risk_probability a >= risk_probability b)%Q) table
  /\ (forall c, In c table -> ~ (risk_probability c < 0.3)%Q).
Proof.
  intros table. subst table. rewrite alertCustomers_filter_sort.
  split; [|split].
  - eapply Permutation_trans.
    + apply filter_Permutation_compat, sort_Permutation.
    + rewrite filter_filter_andb.
      erewrite List.filter_ext; [apply Permutation_refl|].
      intros c. unfold listed. now rewrite andb_assoc.
  - apply StronglySorted_Sorted, filter_StronglySorted.
    apply (Sorted_StronglySorted (descending_trans risk_probability)).
    apply (sort_Sorted by_probability_desc risk_probability).
    exact by_probability_desc_key.
  - intros c Hc Hlt.
    apply List.filter_In in Hc as [Hc _].
    apply (Permutation_in _ (sort_Permutation _ _)) in Hc.
    apply List.filter_In in Hc as [_ Hc].
    unfold above_alert_threshold in Hc. apply Qle_bool_iff in Hc.
    apply (Qlt_not_le _ _ Hlt Hc).
Qed.

(** The table is the one the claim describes whenever every fetched id has
    a status of its own or is not the name of a member of
    [Object.prototype]. *)
Lemma alertCustomers_as_claimed (customers : list CustomerRiskItem)
    (riskFilter statusFilter : string)
    (interventionStatuses : gmap string InterventionStatus) :
  Forall (fun c => Js.inherited (customer_id c) = false
                   \/ is_Some (interventionStatuses !! customer_id c)) customers ->
  let table := alertCustomers customers riskFilter statusFilter interventionStatuses in
  Permutation table
    (List.filter (claimed_row riskFilter statusFilter interventionStatuses) customers)
  /\ Sorted (fun a b => (risk_probability a >= risk_probability b)%Q) table
  /\ (forall c, In c table -> ~ (risk_probability c < 0.3)%Q).
Proof.
  intros Hids table.
  destruct (alertCustomers_filtered_sorted customers riskFilter statusFilter
              interventionStatuses) as (Hperm & Hsorted & Hlow).
  split; [|split; assumption].
  eapply Permutation_trans; [exact Hperm|].
  erewrite List.filter_ext_in; [apply Permutation_refl|].
  intros c Hc. apply listed_claimed_row.
  rewrite List.Forall_forall in Hids. now apply Hids.
Qed.

(** C10. The table is not always the one claimed: a fetched customer whose
    id is the name of a member of [Object.prototype] (here "constructor"),
    with risk_probability 0.9 and no intervention status set, is a row of
    the claimed table under risk filter "all" and status filter "none", yet
    the code's table is empty. The read [interventionStatuses[id]] finds the
    inherited member, a truthy value that is not a string, so ["none"] is not
    substituted and the comparison with the filter fails. *)
Theorem C10_alertCustomers_inherited_status :
  let c := {| customer_id := "constructor"; risk_probability := 0.9;
              risk_category := HIGH |} in
  List.filter (claimed_row "all" "none" ∅) [c] = [c]
  /\ getStatus ∅ c = Inherited "constructor"
  /\ alertCustomers [c] "all" "none" ∅ = [].
Proof. cbv zeta. repeat split; vm_compute; reflexivity. Qed.

(** The series depends on nothing but the map. *)
Lemma contributingSeries_of_features (d d' : CustomerDrilldown) :
  contributing_features d = contributing_features d' ->
  contributingSeries (Some d) = contributingSeries (Some d').
Proof. intros H. unfold contributingSeries. now rewrite H. Qed.

Example contributingSeries_run :
  contributingSeries
    (Some {| dd_customer_id := "CUST-7"; behavioural_score := 0.5;
             liquidity_score := 0.5; delinquency_probability := 0.5;
             contributing_features :=
               [("salary_delay", 0.1%Q); ("savings_drop", (-0.4)%Q);
                ("atm", 0.25%Q); ("util", 0.4%Q)] |})
  = [ {| feature := "savings_drop"; value := -0.4 |};
      {| feature := "util"; value := 0.4 |};
      {| feature := "atm"; value := 0.25 |};
      {| feature := "salary_delay"; value := 0.1 |} ].
Proof. reflexivity. Qed.

Example alertCustomers_run :
  map customer_id
    (alertCustomers
       [ {| customer_id := "A"; risk_probability := 0.35; risk_category := LOW |};
         {| customer_id := "B"; risk_probability := 0.91; risk_category := HIGH |};
         {| customer_id := "C"; risk_probability := 0.29; risk_category := LOW |};
         {| customer_id := "D"; risk_probability := 0.55; risk_category := MEDIUM |};
         {| customer_id := "E"; risk_probability := 0.91; risk_category := HIGH |} ]
       "all" "none" {[ "D" := offered ]})
  = ["B"; "E"; "A"].
Proof. vm_compute. reflexivity. Qed.

End DerivedViews.

(** ** The synthetic data generator *)

Section Generator.

Import MockData.

Lemma gen_post_ret {A : Type} ok (P : A -> Prop) (a : A) :
  P a -> gen_post ok P (mret a).
Proof. intros Ha src n _. exact Ha. Qed.

Lemma gen_post_bind {A B : Type} ok (P : A -> Prop) (Q : B -> Prop)
    (m : Gen A) (k : A -> Gen B) :
  gen_post ok P m ->
  (forall a, P a -> gen_post ok Q (k a)) ->
  gen_post ok Q (m ≫= k).
Proof.
  intros Hm Hk src n Hsrc. unfold mbind, gen_bind.
  specialize (Hm src n Hsrc).
  destruct (m src n) as [a n']. now apply (Hk a).
Qed.

Lemma gen_post_bind_any {A B : Type} ok (Q : B -> Prop) (m : Gen A) (k : A -> Gen B) :
  (forall a, gen_post ok Q (k a)) -> gen_post ok Q (m ≫= k).
Proof.
  intros Hk. apply (gen_post_bind ok (fun _ => True)); [now intros ? ? ?|auto].
Qed.

Lemma gen_post_mapM {A B : Type} ok (P : B -> Prop) (f : A -> Gen B) (l : list A) :
  (forall x, gen_post ok P (f x)) ->
  gen_post ok (fun ys => length ys = length l /\ Forall P ys) (mapM f l).
Proof.
  intros Hf. induction l as [|x l IH]; simpl.
  - apply gen_post_ret. split; [reflexivity | constructor].
  - eapply gen_post_bind; [apply Hf|]. intros y Hy.
    eapply gen_post_bind; [apply IH|]. intros ys [Hlen Hys].
    apply gen_post_ret. simpl. split; [now rewrite Hlen | now constructor].
Qed.

Lemma rand_range (min max : Z) :
  min <= max ->
  gen_post unit_draws (fun z => min <= z <= max) (rand min max).
Proof.
  intros Hmm src n Hsrc. unfold rand, random, mbind, gen_bind, mret, gen_ret. cbn [fst].
  destruct (Hsrc n) as [H0 H1].
  set (w := max - min + 1).
  assert (Hw : (0 < inject_Z w)%Q) by (change 0%Q with (inject_Z 0); rewrite <- Zlt_Qlt; subst w; lia).
  assert (Hlo : (0 <= src n * inject_Z w)%Q) by nra.
  assert (Hhi : (src n * inject_Z w < inject_Z w)%Q) by nra.
  pose proof (Qfloor_resp_le _ _ Hlo) as Hf0. change (Qfloor 0) with 0 in Hf0.
  pose proof (Qfloor_le (src n * inject_Z w)) as Hf1.
  assert (Hf2 : (inject_Z (Qfloor (src n * inject_Z w)) < inject_Z w)%Q)
    by (eapply Qle_lt_trans; eassumption).
  rewrite <- Zlt_Qlt in Hf2. subst w. lia.
Qed.

Lemma rand_constant (c : Q) (min max : Z) :
  gen_post (fun src => forall n, src n = c)
    (fun z => z = Qfloor (c * inject_Z (max - min + 1)) + min) (rand min max).
Proof.
  intros src n Hsrc. unfold rand, random, mbind, gen_bind, mret, gen_ret. cbn [fst].
  now rewrite Hsrc.
Qed.

Ltac gen_skip :=
  repeat (apply gen_post_bind_any; intros ?; cbv beta zeta).

(** The fields riskScore and riskCategory of a generated customer: the
    score is the one drawn by [rand 5 98], the category is computed from
    it. *)
Lemma generateCustomer_score ok (P : Z -> Prop) (index : Z) :
  gen_post ok P (rand 5 98) ->
  gen_post ok
    (fun c => P (riskScore c) /\ riskCategory c = getRiskCategory (riskScore c))
    (generateCustomer index).
Proof.
  intros Hrand. unfold generateCustomer.
  do 2 (apply gen_post_bind_any; intros ?).
  eapply gen_post_bind; [exact Hrand|]. intros score Hscore. cbv beta zeta.
  gen_skip.
  apply gen_post_ret. simpl. auto.
Qed.

Lemma customers_score ok (P : Z -> Prop) (src : nat -> Q) :
  gen_post ok P (rand 5 98) -> ok src ->
  length (customers src) = 120%nat
  /\ Forall (fun c => P (riskScore c)
                      /\ riskCategory c = getRiskCategory (riskScore c))
       (customers src).
Proof.
  intros Hrand Hsrc. unfold customers, run, customers_gen.
  pose proof (gen_post_mapM ok _ generateCustomer (map Z.of_nat (seq 0 120))
                (fun i => generateCustomer_score ok P i Hrand) src O Hsrc) as [Hlen Hall].
  split; [|exact Hall].
  rewrite Hlen. reflexivity.
Qed.

(** *** The random walk *)

Lemma gen_post_foldM {A B : Type} ok (Inv : nat -> A -> Prop)
    (f : A -> B -> Gen A) (l : list B) :
  (forall k a b, Inv k a -> gen_post ok (Inv (S k)) (f a b)) ->
  forall k a, Inv k a -> gen_post ok (Inv (k + length l)%nat) (foldM f a l).
Proof.
  intros Hf. induction l as [|b rest IH]; intros k a Ha; simpl.
  - apply gen_post_ret. now rewrite Nat.add_0_r.
  - eapply gen_post_bind; [apply (Hf k a b Ha)|]. intros a' Ha'.
    rewrite <- Nat.add_succ_comm. now apply IH.
Qed.

Lemma max_0_nonneg (x : Q) : (0 <= Js.max 0 x)%Q.
Proof.
  unfold Js.max. destruct (Qle_bool 0 x) eqn:Hx.
  - now apply Qle_bool_iff.
  - apply Qle_refl.
Qed.

Lemma roundTo_nonneg (d : nat) (x : Q) : (0 <= x)%Q -> (0 <= Js.roundTo d x)%Q.
Proof.
  intros Hx. unfold Js.roundTo.
  apply Qle_bool_iff in Hx as Hb. rewrite Hb.
  assert (Hs : (0 < inject_Z (10 ^ Z.of_nat d))%Q).
  { change 0%Q with (inject_Z 0). rewrite <- Zlt_Qlt.
    apply Z.pow_pos_nonneg; lia. }
  set (scale := inject_Z (10 ^ Z.of_nat d)) in *.
  assert (Hn : (0 <= x * scale + (1 # 2))%Q) by nra.
  apply Qfloor_resp_le in Hn. change (Qfloor 0) with 0 in Hn.
  apply Qle_shift_div_l; [exact Hs|].
  rewrite Qmult_0_l. change 0%Q with (inject_Z 0). now rewrite <- Zle_Qle.
Qed.

Lemma length_countdown (n : nat) : length (countdown n) = n.
Proof. induction n as [|n IH]; simpl; [reflexivity | now rewrite IH]. Qed.

Lemma timeSeriesStep_inv (volatility trend : Q) (k : nat) (st : Q * list point) (i : Z) :
  walk_inv k st ->
  gen_post any_draws (walk_inv (S k)) (timeSeriesStep volatility trend st i).
Proof.
  intros [Hlen Hall]. destruct st as [value data]. unfold timeSeriesStep.
  apply gen_post_bind_any. intros r. apply gen_post_ret.
  unfold walk_inv. simpl in *. split.
  - rewrite length_app. simpl. lia.
  - apply Forall_app. split; [exact Hall|].
    constructor; [|constructor]. simpl.
    apply roundTo_nonneg, max_0_nonneg.
Qed.

Lemma generateTimeSeries_inv (days : Z) (baseValue volatility trend : Q) :
  gen_post any_draws
    (fun series => length series = Z.to_nat (days + 1)
                   /\ Forall (fun p => (0 <= pt_value p)%Q) series)
    (generateTimeSeries days baseValue volatility trend).
Proof.
  unfold generateTimeSeries.
  eapply gen_post_bind.
  - apply (gen_post_foldM any_draws walk_inv
             (timeSeriesStep volatility trend) (countdown (Z.to_nat (days + 1)))
             (timeSeriesStep_inv volatility trend) O (baseValue, [])).
    split; [reflexivity | constructor].
  - intros st Hst. apply gen_post_ret.
    rewrite length_countdown in Hst. exact Hst.
Qed.



(** *** The customer collection *)

(** C8. On every sequence of draws from [0, 1) the module-level array
    holds exactly 120 customers, and every riskScore (an integer by its
    type) lies between 5 and 98. *)
Theorem C8_customers_count_and_score_range (src : nat -> Q) :
  unit_draws src ->
  length (customers src) = 120%nat
  /\ Forall (fun c => 5 <= riskScore c <= 98) (customers src).
Proof.
  intros Hsrc.
  destruct (customers_score unit_draws (fun z => 5 <= z <= 98) src) as [Hlen Hall].
  - apply rand_range. lia.
  - exact Hsrc.
  - split; [exact Hlen|].
    eapply List.Forall_impl; [|exact Hall]. now intros c [Hc _].
Qed.

Lemma half_unit_draws : unit_draws (fun _ => 1 # 2).
Proof. intros n. split; [discriminate | reflexivity]. Qed.

Lemma C8_customers_witness :
  unit_draws (fun _ => 1 # 2)
  /\ length (customers (fun _ => 1 # 2)) = 120%nat
  /\ Forall (fun c => 5 <= riskScore c <= 98) (customers (fun _ => 1 # 2)).
Proof.
  split; [exact half_unit_draws|].
  apply (C8_customers_count_and_score_range (fun _ => 1 # 2)). exact half_unit_draws.
Defined.

Lemma getRiskCategory_thresholds (score : Z) :
  (getRiskCategory score = High <-> 75 <= score)
  /\ (getRiskCategory score = Moderate <-> 50 <= score < 75)
  /\ (getRiskCategory score = EarlyStress <-> 30 <= score < 50)
  /\ (getRiskCategory score = Low <-> score < 30).
Proof.
  unfold getRiskCategory.
  destruct (75 <=? score) eqn:H75; [|destruct (50 <=? score) eqn:H50;
    [|destruct (30 <=? score) eqn:H30]];
  repeat split; intros; try discriminate; try reflexivity; lia.
Qed.

(** C3, as the code has it. Every generated customer carries the category
    that getRiskCategory gives its own riskScore, on the generator's
    four-way scale of the 0..100 score: High from 75, Moderate from 50,
    Early Stress from 30, Low below 30. *)
Theorem C3_riskCategory_from_riskScore (src : nat -> Q) :
  Forall (fun c =>
            riskCategory c = getRiskCategory (riskScore c)
            /\ (riskCategory c = High <-> 75 <= riskScore c)
            /\ (riskCategory c = Moderate <-> 50 <= riskScore c < 75)
            /\ (riskCategory c = EarlyStress <-> 30 <= riskScore c < 50)
            /\ (riskCategory c = Low <-> riskScore c < 30))
    (customers src).
Proof.
  destruct (customers_score any_draws (fun _ => True) src) as [_ Hall].
  - now intros ? ? ?.
  - exact I.
  - eapply List.Forall_impl; [|exact Hall].
    intros c [_ Hc]. split; [exact Hc|].
    rewrite Hc. apply getRiskCategory_thresholds.
Qed.

Lemma constant_unit_draws (c : Q) :
  (0 <= c)%Q -> (c < 1)%Q -> unit_draws (fun _ => c).
Proof. intros H0 H1 n. now split. Qed.

(** On a constant draw source every customer gets the same score. *)
Lemma customers_constant (c : Q) :
  exists first rest,
    customers (fun _ => c) = first :: rest
    /\ riskScore first = Qfloor (c * inject_Z (98 - 5 + 1)) + 5
    /\ riskCategory first = getRiskCategory (riskScore first).
Proof.
  destruct (customers_score (fun src => forall n, src n = c)
              (fun z => z = Qfloor (c * inject_Z (98 - 5 + 1)) + 5)
              (fun _ => c)) as [Hlen Hall].
  - apply rand_constant.
  - reflexivity.
  - destruct (customers (fun _ => c)) as [|first rest]; [discriminate|].
    exists first, rest. inversion Hall as [|? ? [Hscore Hcat] _]; subst. auto.
Qed.

(** C3 as stated fails: no reading of the four generator categories as
    LOW / MEDIUM / HIGH makes every record agree with the 0.40 / 0.70 rule
    applied to its score. A score of 36 and a score of 45 are both
    Early Stress, while the rule separates them at 40. *)
Lemma C3_counterexample_early_stress_straddles_040 :
  ~ exists f : RiskCategory -> BackendApi.RiskLevel,
      forall src, unit_draws src ->
        Forall (fun c => f (riskCategory c)
                         = Spec.bucketing (inject_Z (riskScore c) / 100))
          (customers src).
Proof.
  intros [f Hf].
  pose proof (Hf (fun _ => 31 # 94)
                (constant_unit_draws (31 # 94) ltac:(discriminate) ltac:(reflexivity)))
    as H36.
  pose proof (Hf (fun _ => 40 # 94)
                (constant_unit_draws (40 # 94) ltac:(discriminate) ltac:(reflexivity)))
    as H45.
  destruct (customers_constant (31 # 94)) as (c1 & r1 & E1 & S1 & C1).
  destruct (customers_constant (40 # 94)) as (c2 & r2 & E2 & S2 & C2).
  rewrite E1 in H36. rewrite E2 in H45.
  inversion H36 as [|? ? F1 _]. inversion H45 as [|? ? F2 _]. subst.
  rewrite C1, S1 in F1. rewrite C2, S2 in F2.
  vm_compute in F1, F2. congruence.
Qed.

Example getRiskCategory_run :
  map getRiskCategory [5; 29; 30; 49; 50; 74; 75; 98]
  = [Low; Low; EarlyStress; EarlyStress; Moderate; Moderate; High; High].
Proof. reflexivity. Qed.

Example generateTimeSeries_run :
  map (fun p => (pt_date p, Qred (pt_value p)))
    (run (generateTimeSeries 2 1 3 (-0.05)) (fun n => Z.of_nat n # 4))
  = [(SetDateBack 2, 0%Q); (SetDateBack 1, 0%Q); (SetDateBack 0, 0%Q)]
  /\ map (fun p => (pt_date p, Qred (pt_value p)))
       (run (generateTimeSeries 2 10 3 0.15) (fun n => Z.of_nat n # 4))
     = [(SetDateBack 2, 173 # 20); (SetDateBack 1, 161 # 20); (SetDateBack 0, 41 # 5)].
Proof. split; vm_compute; reflexivity. Qed.

End Generator.

(** ** Risk bucketing *)

Section Bucketing.

Import BackendApi Pages.

Lemma getDelinquencyRiskLevel_thresholds (p : Q) :
  (getDelinquencyRiskLevel p = "High Risk" <-> (0.75 <= p)%Q)
  /\ (getDelinquencyRiskLevel p = "Medium Risk" <-> (0.4 <= p)%Q /\ (p < 0.75)%Q)
  /\ (getDelinquencyRiskLevel p = "Low Risk" <-> (p < 0.4)%Q).
Proof.
  unfold getDelinquencyRiskLevel.
  destruct (Qle_bool 75 (p * 100)) eqn:H75;
    [|destruct (Qle_bool 40 (p * 100)) eqn:H40].
  - apply Qle_bool_iff in H75.
    repeat split; intros; try discriminate; try lra.
  - apply Qle_bool_iff in H40.
    assert (~ (75 <= p * 100)%Q) by (rewrite <- Qle_bool_iff; congruence).
    repeat split; intros; try discriminate; try lra.
  - assert (~ (75 <= p * 100)%Q) by (rewrite <- Qle_bool_iff; congruence).
    assert (~ (40 <= p * 100)%Q) by (rewrite <- Qle_bool_iff; congruence).
    repeat split; intros; try discriminate; try lra.
Qed.

(** C2 at p = 0.72: the 0.40 / 0.70 rule puts it in HIGH, the code labels
    it Medium Risk, because its upper threshold is 75. *)
Theorem C2_getDelinquencyRiskLevel_at_072 :
  Spec.bucketing 0.72 = HIGH
  /\ getDelinquencyRiskLevel 0.72 = "Medium Risk".
Proof. split; reflexivity. Qed.

Example getDelinquencyRiskLevel_run :
  map getDelinquencyRiskLevel [0.39; 0.4; 0.7; 0.75]%Q
  = ["Low Risk"; "Medium Risk"; "Medium Risk"; "High Risk"].
Proof. reflexivity. Qed.

End Bucketing.

(** ** The request layer *)

Section RequestLayer.

Import BackendApi.

Lemma fetchWithTimeout_responds rt net input t r :
  net input = Responds t r -> t < REQUEST_TIMEOUT_MS ->
  outcome (fetchWithTimeout rt net input) = inl r.
Proof.
  intros Hnet Ht. unfold fetchWithTimeout. rewrite Hnet.
  apply Z.ltb_lt in Ht. now rewrite Ht.
Qed.

Lemma fetchWithTimeout_silent rt net input :
  net input = NeverSettles ->
  fetchWithTimeout rt net input
  = {| outcome := inr (race_rejection rt); settled_at := REQUEST_TIMEOUT_MS;
       timer_state := Fired; aborted := true |}.
Proof. intros Hnet. unfold fetchWithTimeout. now rewrite Hnet. Qed.

(** No path through fetchWithTimeout leaves its timer pending. *)
Lemma fetchWithTimeout_timer rt net input :
  timer_state (fetchWithTimeout rt net input) <> Pending.
Proof.
  unfold fetchWithTimeout.
  destruct (net input) as [t r|t e|]; try destruct (t <? REQUEST_TIMEOUT_MS);
    simpl; discriminate.
Qed.

Lemma call_timer rt net op : timer_state (call rt net op) <> Pending.
Proof. destruct op; simpl; apply fetchWithTimeout_timer. Qed.

Lemma normalizeFetchError_race rt fallback :
  normalizeFetchError rt (race_rejection rt) fallback = ErrorObj "Error" TIMEOUT_MESSAGE.
Proof.
  unfold normalizeFetchError, race_rejection.
  destruct (abort_settles_first rt); reflexivity.
Qed.

Lemma normalizeFetchError_http rt r fallback :
  normalizeFetchError rt (newError (Js.Str (http_status_text r))) fallback
  = ErrorObj "Error" fallback.
Proof. reflexivity. Qed.

(** The operations that hand every failure to normalizeFetchError report a
    silent backend with the timeout text, at the deadline. *)
Lemma normalizing_call_timeout rt net op :
  (forall req, net req = NeverSettles) ->
  reads_detail op = false ->
  outcome (call rt net op) = inr (ErrorObj "Error" TIMEOUT_MESSAGE)
  /\ settled_at (call rt net op) = REQUEST_TIMEOUT_MS.
Proof.
  intros Hnet Hop.
  destruct op; try discriminate Hop; simpl;
    unfold checkBackendHealth, getCustomerList, getPortfolioSummary, getRiskTrend,
      getFeatureImportance, getPortfolioHeatmap, getCustomerRiskList, after_fetch;
    rewrite fetchWithTimeout_silent by apply Hnet; simpl;
    rewrite normalizeFetchError_race; auto.
Qed.

(** The operations that rethrow any Error hand a silent backend's rejection
    on as it is, unless the runtime's DOMException is not an Error. *)
Lemma rethrowing_call_timeout rt net op :
  (forall req, net req = NeverSettles) ->
  reads_detail op = true ->
  outcome (call rt net op)
  = inr (if instanceof_Error rt (race_rejection rt) then race_rejection rt
         else ErrorObj "Error" TIMEOUT_MESSAGE)
  /\ settled_at (call rt net op) = REQUEST_TIMEOUT_MS.
Proof.
  intros Hnet Hop.
  destruct op; try discriminate Hop; simpl;
    unfold getCustomerData, predictRisk, getCustomerDrilldown,
      predictAndSendIntervention, after_fetch;
    rewrite fetchWithTimeout_silent by apply Hnet; simpl;
    (destruct (instanceof_Error rt (race_rejection rt));
     [|rewrite normalizeFetchError_race]; auto).
Qed.

(** C5 at predictRisk against a backend that never responds: the call
    fails at the 8000 ms deadline with its timer no longer pending, but
    what it throws is the raw rejection of the race (an Error whose message
    is REQUEST_TIMEOUT, or the AbortError of the aborted fetch) and not the
    timeout text of normalizeFetchError, which getPortfolioSummary does
    throw on the same backend. *)
Theorem C5_predictRisk_timeout_not_normalized :
  outcome (predictRisk timer_first_runtime silent_backend "CUST-7")
    = inr (ErrorObj "Error" "REQUEST_TIMEOUT")
  /\ outcome (predictRisk standard_runtime silent_backend "CUST-7")
    = inr (DOMException "AbortError" "signal is aborted without reason")
  /\ (forall rt,
        outcome (getPortfolioSummary rt silent_backend)
        = inr (ErrorObj "Error" TIMEOUT_MESSAGE))
  /\ (forall rt,
        settled_at (predictRisk rt silent_backend "CUST-7") = REQUEST_TIMEOUT_MS
        /\ timer_state (predictRisk rt silent_backend "CUST-7") <> Pending).
Proof.
  split; [reflexivity|]. split; [reflexivity|]. split; intros rt.
  - apply (normalizing_call_timeout rt silent_backend GetPortfolioSummary);
      reflexivity.
  - split.
    + apply (rethrowing_call_timeout rt silent_backend (PredictRisk "CUST-7"));
        reflexivity.
    + apply (call_timer rt silent_backend (PredictRisk "CUST-7")).
Qed.

Lemma truthy_Str_ne (s : string) :
  s <> EmptyString -> Js.truthy (Js.Str s) = true.
Proof.
  intros Hne. simpl. destruct (String.eqb_spec s EmptyString); [contradiction|reflexivity].
Qed.

Lemma get_detail_read (v : Js.value) (s : string) :
  Js.get v "detail" = Js.Str s -> read_detail v = inl (Js.Str s).
Proof. destruct v; simpl; intros H; try discriminate H; now rewrite H. Qed.

(** C1, as the code has it. When the backend answers within the deadline
    with a non-2xx status: getCustomerData, predictRisk,
    getCustomerDrilldown and predictAndSendIntervention throw an Error whose
    message is the [detail] of the JSON body, if that is a non-empty string;
    the other seven operations throw an Error whose message is their own
    fixed fallback text, whatever the body is. *)
Theorem C1_error_detail_or_fallback (rt : runtime) (net : Request -> network)
    (op : operation) (t : Z) (r : Response) :
  (forall req, net req = Responds t r) ->
  t < REQUEST_TIMEOUT_MS ->
  ok r = false ->
  if reads_detail op
  then forall (v : Js.value) (detail : string),
         body r = inl v ->
         Js.get v "detail" = Js.Str detail ->
         detail <> EmptyString ->
         outcome (call rt net op) = inr (ErrorObj "Error" detail)
  else outcome (call rt net op) = inr (ErrorObj "Error" (fallback_of op)).
Proof.
  intros Hnet Ht Hok.
  destruct op; cbn [reads_detail]; try intros v detail Hbody Hdetail Hne; simpl;
    unfold checkBackendHealth, getCustomerList, getCustomerData, predictRisk,
      getPortfolioSummary, getRiskTrend, getFeatureImportance, getPortfolioHeatmap,
      getCustomerRiskList, getCustomerDrilldown, predictAndSendIntervention,
      after_fetch; cbn [outcome];
    rewrite (fetchWithTimeout_responds rt net _ t r (Hnet _) Ht);
    unfold try_status, try_detail, json; rewrite Hok; cbn [negb];
    try (rewrite Hbody, (get_detail_read v detail Hdetail);
         unfold Js.or; rewrite (truthy_Str_ne detail Hne));
    reflexivity.
Qed.

Lemma C1_error_detail_witness :
  outcome (call standard_runtime (fun _ => Responds 120 not_found)
             (GetCustomerData "CUST-7"))
  = inr (ErrorObj "Error" "not found")
  /\ outcome (call standard_runtime (fun _ => Responds 120 not_found)
                GetPortfolioSummary)
     = inr (ErrorObj "Error" "Failed to load portfolio summary").
Proof.
  split.
  - apply (C1_error_detail_or_fallback standard_runtime
             (fun _ => Responds 120 not_found) (GetCustomerData "CUST-7")
             120 not_found (fun _ => eq_refl) eq_refl eq_refl
             (Js.Obj [("detail", Js.Str "not found")]) "not found").
    + reflexivity.
    + reflexivity.
    + discriminate.
  - apply (C1_error_detail_or_fallback standard_runtime
             (fun _ => Responds 120 not_found) GetPortfolioSummary
             120 not_found).
    + reflexivity.
    + reflexivity.
    + reflexivity.
Defined.

(** C1 as stated fails: on status 404 with body [{"detail":"not found"}]
    getPortfolioSummary throws its fallback text, not the detail. *)
Lemma C1_counterexample_getPortfolioSummary :
  ok not_found = false
  /\ body not_found = inl (Js.Obj [("detail", Js.Str "not found")])
  /\ outcome (getPortfolioSummary standard_runtime (fun _ => Responds 120 not_found))
     = inr (ErrorObj "Error" "Failed to load portfolio summary")
  /\ "Failed to load portfolio summary" <> "not found".
Proof. repeat split. discriminate. Qed.

Example getCustomerData_empty_detail_run :
  outcome (getCustomerData standard_runtime
             (fun _ => Responds 120
                {| status := 500;
                   body := inl (Js.Obj [("detail", Js.Str EmptyString)]) |})
             "CUST-7")
  = inr (ErrorObj "Error" "HTTP 500").
Proof. reflexivity. Qed.

Example getCustomerList_network_failure_run :
  getCustomerList standard_runtime
    (fun _ => Rejects 15 (ErrorObj "TypeError" "Failed to fetch")) (Some 200)
  = {| outcome := inr (ErrorObj "Error" "Unable to retrieve customer list from backend");
       settled_at := 15; timer_state := Cleared; aborted := false |}.
Proof. reflexivity. Qed.

End RequestLayer.

(** ** The e-mail relay *)

Section Relay.

Import EmailServer.

(** Reading a field of [req.body || {}] is reading it off the body. *)
Lemma get_or_empty (reqBody : Js.value) (k : string) :
  Js.get (Js.or reqBody (Js.Obj [])) k = Js.get reqBody k.
Proof.
  unfold Js.or. destruct (Js.truthy reqBody) eqn:Ht; [reflexivity|].
  destruct reqBody; try discriminate Ht; reflexivity.
Qed.

Lemma sendIntervention_unconfigured env provider reqBody :
  hasMissingSmtpConfig env = true ->
  sendIntervention env provider reqBody
  = {| response := {| status := 500; body := Text "Missing SMTP configuration in .env" |};
       sendMail_calls := [] |}.
Proof. intros H. unfold sendIntervention. now rewrite H. Qed.

Lemma sendIntervention_rejected env provider reqBody :
  hasMissingSmtpConfig env = false ->
  (exists k, In k required_fields /\ Js.truthy (Js.get reqBody k) = false) ->
  sendIntervention env provider reqBody
  = {| response := {| status := 400; body := Text "Missing required email fields" |};
       sendMail_calls := [] |}.
Proof.
  intros Hcfg (k & Hk & Hfalsy). unfold sendIntervention. rewrite Hcfg.
  rewrite !get_or_empty.
  assert (Hcheck :
    negb (Js.truthy (Js.get reqBody "customerId"))
    || negb (Js.truthy (Js.get reqBody "customerName"))
    || negb (Js.truthy (Js.get reqBody "topSignal"))
    || negb (Js.truthy (Js.get reqBody "selectedIntervention")) = true).
  { simpl in Hk.
    destruct Hk as [<-|[<-|[<-|[<-|[]]]]]; rewrite Hfalsy; simpl;
      rewrite ?orb_true_r; reflexivity. }
  now rewrite Hcheck.
Qed.

Lemma app_passed {Req : Type} (express_json : Req -> parsed) env provider
    (req : Req) (reqBody : Js.value) :
  express_json req = Passed reqBody ->
  app express_json env provider req = sendIntervention env provider reqBody.
Proof. intros H. unfold app. now rewrite H. Qed.

Lemma app_refused {Req : Type} (express_json : Req -> parsed) env provider
    (req : Req) (code : Z) (page : string) :
  express_json req = Refused code page ->
  app express_json env provider req
  = {| response := {| status := code; body := Text page |}; sendMail_calls := [] |}.
Proof. intros H. unfold app. now rewrite H. Qed.

Lemma sendIntervention_missing_field env provider (reqBody : Js.value) (k : string) :
  In k required_fields ->
  Js.get reqBody k = Js.Undefined ->
  sendMail_calls (sendIntervention env provider reqBody) = []
  /\ status (response (sendIntervention env provider reqBody))
     = if hasMissingSmtpConfig env then 500 else 400.
Proof.
  intros Hk Habsent.
  destruct (hasMissingSmtpConfig env) eqn:Hcfg.
  - now rewrite sendIntervention_unconfigured.
  - rewrite sendIntervention_rejected; [now split|exact Hcfg|].
    exists k. split; [exact Hk|]. now rewrite Habsent.
Qed.

(** C4, as the code has it. A request whose body lacks one of customerId,
    customerName, topSignal, selectedIntervention never reaches sendMail.
    When the JSON body parser passes the request on, the handler answers 400
    if the SMTP configuration is complete and 500 if it is not, the
    configuration being checked first; when the parser refuses the request
    (a body over 100 kB, text that is not JSON), the answer carries the
    parser's status (413, 400) and the handler is not run. *)
Theorem C4_missing_field_rejected_without_send {Req : Type}
    (express_json : Req -> parsed) (env : gmap string string)
    (provider : transportOptions -> mail -> sendResult)
    (req : Req) (k : string) :
  In k required_fields ->
  (forall reqBody, express_json req = Passed reqBody ->
                   Js.get reqBody k = Js.Undefined) ->
  sendMail_calls (app express_json env provider req) = []
  /\ status (response (app express_json env provider req))
     = match express_json req with
       | Refused code _ => code
       | Passed _ => if hasMissingSmtpConfig env then 500 else 400
       end.
Proof.
  intros Hk Habsent.
  destruct (express_json req) as [reqBody|code page] eqn:Hparse.
  - rewrite (app_passed express_json env provider req reqBody Hparse).
    apply (sendIntervention_missing_field env provider reqBody k Hk).
    now apply Habsent.
  - now rewrite (app_refused express_json env provider req code page Hparse).
Qed.

Lemma C4_missing_field_witness :
  sendMail_calls
    (app default_json sample_env accepting_provider post_without_intervention) = []
  /\ status (response
       (app default_json sample_env accepting_provider post_without_intervention))
     = 400.
Proof.
  apply (C4_missing_field_rejected_without_send default_json sample_env
           accepting_provider post_without_intervention "selectedIntervention").
  - simpl. auto.
  - intros reqBody [= <-]. reflexivity.
Defined.

(** C4 as stated fails: without SMTP configuration the request that lacks
    selectedIntervention is answered with 500, not 400; and with the
    configuration complete, the same request with 120000 characters of
    officer notes is answered by the body parser with 413, not 400. Neither
    sends anything. *)
Lemma C4_counterexample_unconfigured_or_oversized :
  Js.get (content post_without_intervention) "selectedIntervention" = Js.Undefined
  /\ app default_json ∅ accepting_provider post_without_intervention
     = {| response := {| status := 500;
                         body := Text "Missing SMTP configuration in .env" |};
          sendMail_calls := [] |}
  /\ Js.get (content oversized_post_without_intervention) "selectedIntervention"
     = Js.Undefined
  /\ hasMissingSmtpConfig sample_env = false
  /\ app default_json sample_env accepting_provider oversized_post_without_intervention
     = {| response := {| status := 413;
                         body := Text "PayloadTooLargeError: request entity too large" |};
          sendMail_calls := [] |}.
Proof. repeat split. Qed.





End Relay.

(** * Further properties *)

(** ** Rounding *)

Section Rounding.

Lemma Qfloor_lower (a : Z) (y : Q) : (inject_Z a <= y)%Q -> a <= Qfloor y.
Proof. intros H. apply Qfloor_resp_le in H. now rewrite Qfloor_Z in H. Qed.

Lemma Qfloor_upper (b : Z) (y : Q) : (y < inject_Z (b + 1))%Q -> Qfloor y <= b.
Proof.
  intros H. pose proof (Qfloor_le y) as Hf.
  assert (Hlt : (inject_Z (Qfloor y) < inject_Z (b + 1))%Q)
    by (eapply Qle_lt_trans; eassumption).
  rewrite <- Zlt_Qlt in Hlt. lia.
Qed.

Lemma scale_pos (d : nat) : (0 < inject_Z (10 ^ Z.of_nat d))%Q.
Proof.
  change 0%Q with (inject_Z 0). rewrite <- Zlt_Qlt.
  apply Z.pow_pos_nonneg; lia.
Qed.

Lemma Qdiv_le_mul_l (a s x : Q) : (0 < s)%Q -> (a / s <= x)%Q -> (a <= x * s)%Q.
Proof.
  intros Hs H. assert (E : (a == (a / s) * s)%Q) by (field; lra).
  rewrite E. apply Qmult_le_compat_r; lra.
Qed.

Lemma Qdiv_le_mul_r (b s x : Q) : (0 < s)%Q -> (x <= b / s)%Q -> (x * s <= b)%Q.
Proof.
  intros Hs H. assert (E : (b == (b / s) * s)%Q) by (field; lra).
  rewrite E. apply Qmult_le_compat_r; lra.
Qed.

Lemma Zdiv_scale_le (s : Q) (a b : Z) :
  (0 < s)%Q -> a <= b -> (inject_Z a / s <= inject_Z b / s)%Q.
Proof.
  intros Hs Hab. unfold Qdiv. apply Qmult_le_compat_r.
  - now rewrite <- Zle_Qle.
  - apply Qlt_le_weak, Qinv_lt_0_compat, Hs.
Qed.

(** Rounding to [d] decimals never leaves an interval whose ends are
    themselves multiples of 10^-d. *)
Lemma roundTo_between (d : nat) (a b : Z) (x : Q) :
  let scale := inject_Z (10 ^ Z.of_nat d) in
  (inject_Z a / scale <= x)%Q -> (x <= inject_Z b / scale)%Q ->
  (inject_Z a / scale <= Js.roundTo d x)%Q /\ (Js.roundTo d x <= inject_Z b / scale)%Q.
Proof.
  intros scale Ha Hb. pose proof (scale_pos d) as Hs. fold scale in Hs.
  apply Qdiv_le_mul_l in Ha; [|exact Hs].
  apply Qdiv_le_mul_r in Hb; [|exact Hs].
  unfold Js.roundTo. fold scale.
  destruct (Qle_bool 0 x) eqn:Hsign.
  - assert (H1 : a <= Qfloor (x * scale + (1 # 2))) by (apply Qfloor_lower; lra).
    assert (H2 : Qfloor (x * scale + (1 # 2)) <= b).
    { apply Qfloor_upper. rewrite inject_Z_plus. change (inject_Z 1) with 1%Q. lra. }
    split; now apply Zdiv_scale_le.
  - assert (H1 : - b <= Qfloor (- x * scale + (1 # 2))).
    { apply Qfloor_lower. rewrite inject_Z_opp. lra. }
    assert (H2 : Qfloor (- x * scale + (1 # 2)) <= - a).
    { apply Qfloor_upper. rewrite inject_Z_plus, inject_Z_opp.
      change (inject_Z 1) with 1%Q. lra. }
    set (n := Qfloor (- x * scale + (1 # 2))) in *.
    assert (Hn : (- (inject_Z n / scale) == inject_Z (- n) / scale)%Q)
      by (rewrite inject_Z_opp; field; lra).
    rewrite Hn.
    split; apply Zdiv_scale_le; try exact Hs; lia.
Qed.

Lemma on_grid_spec (d : nat) (q : Q) :
  Inv.on_grid d q = true ->
  (q == inject_Z (Qfloor (q * inject_Z (10 ^ Z.of_nat d))) / inject_Z (10 ^ Z.of_nat d))%Q.
Proof. unfold Inv.on_grid. intros H. apply Qeq_bool_iff in H. now symmetry. Qed.

Lemma roundTo_within (d : nat) (lo hi x : Q) :
  Inv.on_grid d lo = true -> Inv.on_grid d hi = true ->
  (lo <= x)%Q -> (x <= hi)%Q ->
  (lo <= Js.roundTo d x)%Q /\ (Js.roundTo d x <= hi)%Q.
Proof.
  intros Hlo Hhi H1 H2.
  apply on_grid_spec in Hlo. apply on_grid_spec in Hhi.
  rewrite Hlo in H1. rewrite Hhi in H2.
  destruct (roundTo_between d _ _ x H1 H2) as [R1 R2].
  rewrite <- Hlo in R1. rewrite <- Hhi in R2. now split.
Qed.

End Rounding.

(** ** The generator, field by field *)

Section GeneratorFields.

Import MockData Inv.

Lemma gen_post_conseq {A : Type} ok (P Q : A -> Prop) (m : Gen A) :
  gen_post ok P m -> (forall a, P a -> Q a) -> gen_post ok Q m.
Proof. intros Hm HPQ src n Hsrc. apply HPQ, Hm, Hsrc. Qed.

Lemma gen_post_any_source {A : Type} ok (P : A -> Prop) (m : Gen A) :
  gen_post any_draws P m -> gen_post ok P m.
Proof. intros Hm src n _. now apply Hm. Qed.

Lemma gen_post_ret_eq {A : Type} ok (a : A) : gen_post ok (fun x => x = a) (mret a).
Proof. now apply gen_post_ret. Qed.

Lemma gen_post_assoc {A B C : Type} ok (Q : C -> Prop)
    (m : Gen A) (k1 : A -> Gen B) (k : B -> Gen C) :
  gen_post ok Q (m ≫= (fun x => k1 x ≫= k)) ->
  gen_post ok Q ((m ≫= k1) ≫= k).
Proof.
  intros H src n Hsrc. specialize (H src n Hsrc).
  unfold mbind, gen_bind in *.
  destruct (m src n) as [a n1]. destruct (k1 a src n1) as [b n2]. exact H.
Qed.

Lemma gen_post_mapM_Forall2 {A B : Type} ok (R : A -> B -> Prop)
    (f : A -> Gen B) (l : list A) :
  (forall x, gen_post ok (R x) (f x)) ->
  gen_post ok (Forall2 R l) (mapM f l).
Proof.
  intros Hf. induction l as [|x l IH]; simpl.
  - apply gen_post_ret. constructor.
  - eapply gen_post_bind; [apply Hf|]. intros y Hy.
    eapply gen_post_bind; [apply IH|]. intros ys Hys.
    apply gen_post_ret. now constructor.
Qed.

(** pickRandom never leaves the array: on a non-empty array it returns one
    of its elements, never [undefined]. *)
Lemma pickRandom_In {A : Type} (undef : A) (arr : list A) :
  arr <> [] ->
  gen_post unit_draws (fun x => In x arr) (pickRandom undef arr).
Proof.
  intros Hne. unfold pickRandom.
  eapply gen_post_bind.
  - apply (rand_range 0 (Z.of_nat (length arr) - 1)).
    destruct arr; [contradiction|]. cbn [length]. lia.
  - intros i Hi. cbv beta in Hi. apply gen_post_ret.
    destruct (i <? 0) eqn:Hneg; [apply Z.ltb_lt in Hneg; lia|].
    apply nth_In. lia.
Qed.

(** randFloat stays between its bounds when both are multiples of the
    rounding step. *)
Lemma randFloat_range (min max : Q) (decimals : nat) :
  on_grid decimals min = true -> on_grid decimals max = true ->
  Qle_bool min max = true ->
  gen_post unit_draws (fun x => (min <= x)%Q /\ (x <= max)%Q)
    (randFloat min max decimals).
Proof.
  intros Hmin Hmax Hle src n Hsrc.
  unfold randFloat, random, mbind, gen_bind, mret, gen_ret. cbn [fst].
  destruct (Hsrc n) as [H0 H1]. apply Qle_bool_iff in Hle.
  apply roundTo_within; try assumption; nra.
Qed.



Lemma generateTimeSeries_60 ok baseValue volatility trend :
  gen_post ok trend_ok (generateTimeSeries 60 baseValue volatility trend).
Proof.
  intros src n _.
  exact (generateTimeSeries_inv 60 baseValue volatility trend src n I).
Qed.

Lemma generatePayment_ok (riskScore i : Z) :
  gen_post unit_draws (payment_ok riskScore) (generatePayment riskScore i).
Proof.
  unfold generatePayment. cbv zeta.
  eapply gen_post_bind; [apply (rand_range 200 1500); lia|]. intros amount Hamount.
  eapply gen_post_bind.
  - apply pickRandom_In. destruct (60 <? riskScore); discriminate.
  - intros status Hstatus. apply gen_post_ret.
    split; [exact Hamount|].
    intros Hlow Hmissed. simpl in Hmissed. subst status.
    destruct (60 <? riskScore) eqn:H60; [apply Z.ltb_lt in H60; lia|].
    simpl in Hstatus. intuition discriminate.
Qed.


(** One step through a [x ← m; k]: the value bound is described by what is
    known of [m]. *)
Ltac gen_step :=
  cbv beta zeta;
  lazymatch goal with
  | |- gen_post _ _ (mret _) => fail
  | |- gen_post _ _ (mbind _ (rand _ _)) =>
      eapply gen_post_bind; [apply rand_range; lia | intros ? ?]
  | |- gen_post _ _ (mbind _ (pickRandom _ _)) =>
      eapply gen_post_bind; [apply pickRandom_In; discriminate | intros ? ?]
  | |- gen_post _ _ (mbind _ (randFloat _ _ _)) =>
      eapply gen_post_bind;
        [apply randFloat_range; reflexivity | intros ? [? ?]]
  | |- gen_post _ _ (mbind _ (generateTimeSeries 60 _ _ _)) =>
      eapply gen_post_bind; [apply generateTimeSeries_60 | intros ? ?]
  | |- gen_post _ _ (mbind _ (mapM (generatePayment _) _)) =>
      eapply gen_post_bind;
        [apply gen_post_mapM; intros ?; apply generatePayment_ok
        | intros ? [? ?]]
  | |- gen_post _ _ (mbind _ (mret _)) =>
      eapply gen_post_bind; [apply gen_post_ret_eq | intros ? ?]
  | |- gen_post _ _ (mbind _ (mbind _ _)) => apply gen_post_assoc
  | |- gen_post _ _ (mbind _ (if ?c then _ else _)) => destruct c eqn:?
  end.

Lemma generateCustomer_ok (index : Z) :
  gen_post unit_draws (customer_ok index) (generateCustomer index).
Proof.
  unfold generateCustomer.
  repeat gen_step.
  all: cbv beta zeta; apply gen_post_ret.
  all: unfold customer_ok, identity_ok, ranges_ok, intervention_ok, trends_ok,
         payments_ok; cbn [id name email age monthlyIncome outstandingBalance
         savingsBalance originationScore daysPastDue riskScore creditUtilization
         liquidityStressIndex interventionStatus interventionHistory
         riskScoreTrend savingsBalanceTrend salaryDelayTrend
         creditUtilizationTrend atmWithdrawalTrend paymentHistory].
  all: cbv beta in *; subst.
  all: repeat match goal with
         | H : (_ <? _) = true |- _ => apply Z.ltb_lt in H
         | H : (_ <? _) = false |- _ => apply Z.ltb_ge in H
         | H : trend_ok _ |- _ => destruct H
         end.
  all: repeat split; try assumption; try lia; try congruence; eauto 10.
  all: try (intros; exfalso; lia).
  all: try (intros; eexists _, _; repeat split; try reflexivity; eauto; lia).
Qed.


Lemma customers_ok (src : nat -> Q) :
  unit_draws src ->
  Forall2 customer_ok (map Z.of_nat (seq 0 120)) (customers src).
Proof.
  intros Hsrc. unfold customers, run, customers_gen.
  apply (gen_post_mapM_Forall2 unit_draws customer_ok generateCustomer
           (map Z.of_nat (seq 0 120)) generateCustomer_ok src O Hsrc).
Qed.

Lemma Forall2_Forall_r {A B : Type} (R : A -> B -> Prop) (P : B -> Prop)
    (l : list A) (l' : list B) :
  Forall2 R l l' -> (forall x y, R x y -> P y) -> Forall P l'.
Proof.
  intros H HP. induction H; constructor; eauto.
Qed.

Lemma Forall2_map_eq {A B C : Type} (f : A -> C) (g : B -> C)
    (l : list A) (l' : list B) :
  Forall2 (fun x y => g y = f x) l l' -> map g l' = map f l.
Proof. induction 1; simpl; congruence. Qed.



(** pickRandom: on draws from [0, 1) a non-empty array always yields one of
    its own elements, never the [undefined] of an index out of range. *)
Theorem X_pickRandom_member {A : Type} (undef : A) (arr : list A)
    (src : nat -> Q) (cursor : nat) :
  unit_draws src -> arr <> [] ->
  In (fst (pickRandom undef arr src cursor)) arr.
Proof.
  intros Hsrc Hne. apply (pickRandom_In undef arr Hne src cursor Hsrc).
Qed.

Lemma X_pickRandom_member_witness :
  In (fst (pickRandom EmptyString officers (fun _ => 1 # 2) O)) officers.
Proof.
  apply (X_pickRandom_member EmptyString officers (fun _ => 1 # 2) O).
  - exact half_unit_draws.
  - discriminate.
Defined.




(** The customers are numbered in order: record i carries the id
    CUS- followed by i+1 padded to five digits, so all 120 ids differ. *)
Theorem X_customers_ids (src : nat -> Q) :
  unit_draws src ->
  map id (customers src)
  = map (fun i => "CUS-" +:+ Js.padStart 5 (Js.string_of_Z (Z.of_nat i + 1))) (seq 0 120)
  /\ NoDup (map id (customers src)).
Proof.
  intros Hsrc.
  assert (Hids : map id (customers src)
                 = map (fun i => "CUS-" +:+ Js.padStart 5 (Js.string_of_Z (Z.of_nat i + 1)))
                     (seq 0 120)).
  { rewrite <- (List.map_map Z.of_nat
                  (fun i => "CUS-" +:+ Js.padStart 5 (Js.string_of_Z (i + 1)))).
    apply Forall2_map_eq.
    eapply Forall2_impl; [apply customers_ok, Hsrc|].
    intros i c Hc. apply Hc. }
  split; [exact Hids|].
  rewrite Hids. apply (bool_decide_unpack _). vm_compute. exact I.
Qed.

Lemma X_customers_ids_witness :
  map id (customers (fun _ => 1 # 2))
  = map (fun i => "CUS-" +:+ Js.padStart 5 (Js.string_of_Z (Z.of_nat i + 1))) (seq 0 120)
  /\ NoDup (map id (customers (fun _ => 1 # 2))).
Proof. apply (X_customers_ids (fun _ => 1 # 2)). exact half_unit_draws. Defined.

(** Every customer's numeric fields stay in the ranges they are drawn
    from: age 22..68, monthly income 2000..12000, outstanding balance
    5000..200000, savings 500..50000, origination score 300..850, credit
    utilization 0.1..0.95, liquidity stress 0..1; days past due is 0..30 and
    is 0 unless the risk score exceeds 60. *)
Theorem X_customers_field_ranges (src : nat -> Q) :
  unit_draws src -> Forall ranges_ok (customers src).
Proof.
  intros Hsrc. eapply Forall2_Forall_r; [apply customers_ok, Hsrc|].
  intros i c Hc. apply Hc.
Qed.

Lemma X_customers_field_ranges_witness :
  Forall ranges_ok (customers (fun _ => 1 # 2)).
Proof. apply (X_customers_field_ranges (fun _ => 1 # 2)). exact half_unit_draws. Defined.

(** Intervention data is consistent: only customers with a risk score above
    50 have a status other than none; a customer with status none has an
    empty history; any other customer has exactly one history record, with
    the customer's status, a type from interventionTypes and a date 1 to 30
    days back. *)
Theorem X_customers_intervention_consistent (src : nat -> Q) :
  unit_draws src -> Forall intervention_ok (customers src).
Proof.
  intros Hsrc. eapply Forall2_Forall_r; [apply customers_ok, Hsrc|].
  intros i c Hc. apply Hc.
Qed.

Lemma X_customers_intervention_witness :
  Forall intervention_ok (customers (fun _ => 1 # 2)).
Proof.
  apply (X_customers_intervention_consistent (fun _ => 1 # 2)). exact half_unit_draws.
Defined.

(** Each of the five trend series of every generated customer has 61
    points and no negative value. *)
Theorem X_customers_trends (src : nat -> Q) :
  unit_draws src -> Forall trends_ok (customers src).
Proof.
  intros Hsrc. eapply Forall2_Forall_r; [apply customers_ok, Hsrc|].
  intros i c Hc. apply Hc.
Qed.

Lemma X_customers_trends_witness : Forall trends_ok (customers (fun _ => 1 # 2)).
Proof. apply (X_customers_trends (fun _ => 1 # 2)). exact half_unit_draws. Defined.

(** The payment history of every generated customer has 12 entries, each
    with an amount in 200..1500; a customer whose risk score is at most 60
    has no missed payment. *)
Theorem X_customers_payment_history (src : nat -> Q) :
  unit_draws src -> Forall payments_ok (customers src).
Proof.
  intros Hsrc. eapply Forall2_Forall_r; [apply customers_ok, Hsrc|].
  intros i c Hc. apply Hc.
Qed.

Lemma X_customers_payment_history_witness :
  Forall payments_ok (customers (fun _ => 1 # 2)).
Proof. apply (X_customers_payment_history (fun _ => 1 # 2)). exact half_unit_draws. Defined.

End GeneratorFields.

(** ** The module once loaded *)

Section ModuleLoad.

Import MockData MockDataInit Inv.

Lemma load_customers (src : nat -> Q) : ex_customers (load src) = customers src.
Proof.
  unfold load, customers, run, load_gen, mbind, gen_bind, mret, gen_ret.
  destruct (customers_gen src O) as [cs n1].
  destruct (weeklyRiskTrend_gen src n1) as [w n2].
  destruct (cohortHeatmapData_gen src n2) as [h n3].
  destruct (mockRiskTrend_gen src n3) as [t n4]. reflexivity.
Qed.

Lemma load_portfolioMetrics (src : nat -> Q) :
  ex_portfolioMetrics (load src) = portfolioMetrics (customers src)
  /\ ex_riskDistribution (load src) = riskDistribution (portfolioMetrics (customers src)).
Proof.
  unfold load, customers, run, load_gen, mbind, gen_bind, mret, gen_ret.
  destruct (customers_gen src O) as [cs n1]. cbv zeta.
  destruct (weeklyRiskTrend_gen src n1) as [w n2].
  destruct (cohortHeatmapData_gen src n2) as [h n3].
  destruct (mockRiskTrend_gen src n3) as [t n4]. split; reflexivity.
Qed.

(** Every customer falls in exactly one of the four categories. *)
Lemma count_category_partition (cs : list Customer) :
  count_category High cs + count_category Moderate cs
  + count_category EarlyStress cs + count_category Low cs
  = Z.of_nat (length cs).
Proof.
  unfold count_category. induction cs as [|c cs IH]; [reflexivity|].
  cbn [List.filter length].
  destruct (riskCategory c);
    repeat match goal with
      | |- context [bool_decide (?a = ?b)] =>
          first [ rewrite (bool_decide_eq_true_2 (a = b)) by reflexivity
                | rewrite (bool_decide_eq_false_2 (a = b)) by discriminate ]
      end;
    cbn [length]; lia.
Qed.

(** The four counts of portfolioMetrics add up to totalCustomers, which is
    120; so do the four slices of riskDistribution. *)
Theorem X_portfolioMetrics_partition (src : nat -> Q) :
  let m := ex_portfolioMetrics (load src) in
  totalCustomers m = 120
  /\ highRisk m + moderateRisk m + earlyStress m + lowRisk m = totalCustomers m
  /\ fold_right Z.add 0 (map sl_value (ex_riskDistribution (load src)))
     = totalCustomers m.
Proof.
  destruct (load_portfolioMetrics src) as [Hm Hd]. cbv zeta. rewrite Hm, Hd.
  destruct (customers_score any_draws (fun _ => True) src) as [Hlen _];
    [now intros ? ? ? | exact I |].
  pose proof (count_category_partition (customers src)) as Hpart.
  unfold portfolioMetrics, riskDistribution.
  cbn [totalCustomers highRisk moderateRisk earlyStress lowRisk map sl_value fold_right].
  rewrite Hlen in *. repeat split; lia.
Qed.

Lemma clamp_20_30 (y : Q) :
  (20 <= Js.max 20 (JsMore.min 30 y))%Q /\ (Js.max 20 (JsMore.min 30 y) <= 30)%Q.
Proof.
  unfold Js.max, JsMore.min.
  destruct (Qle_bool 30 y) eqn:H30.
  - vm_compute. split; discriminate.
  - destruct (Qle_bool 20 y) eqn:H20.
    + apply Qle_bool_iff in H20. split; [exact H20|].
      apply Qlt_le_weak, Qnot_le_lt. rewrite <- Qle_bool_iff. congruence.
    + split; [apply Qle_refl | discriminate].
Qed.

Lemma generateMockTrendPoint_ok (i : Z) :
  gen_post unit_draws (mockTrendPoint_ok i) (generateMockTrendPoint i).
Proof.
  unfold generateMockTrendPoint. cbv zeta.
  apply gen_post_bind_any. intros r.
  eapply gen_post_bind; [apply (randFloat_range 48 52 1); reflexivity|].
  intros avg [Ha1 Ha2]. apply gen_post_ret.
  split; [reflexivity|]. cbn [delinquency_probability avg_risk_score].
  split; [|split; [|split; assumption]].
  all: destruct (clamp_20_30 (25 + (r - 0.5) * 8)) as [C1 C2].
  all: apply (roundTo_within 3 0.2 0.3); try reflexivity.
  all: set (c := Js.max 20 (JsMore.min 30 (25 + (r - 0.5) * 8))) in *.
  all: apply Qle_shift_div_l || apply Qle_shift_div_r; try reflexivity.
  all: lra.
Qed.


Lemma load_mockRiskTrend_ok (src : nat -> Q) :
  unit_draws src ->
  Forall2 mockTrendPoint_ok (map Z.of_nat (seq 0 12)) (ex_mockRiskTrend (load src)).
Proof.
  intros Hsrc.
  assert (H : gen_post unit_draws
                (fun e => Forall2 mockTrendPoint_ok (map Z.of_nat (seq 0 12))
                            (ex_mockRiskTrend e)) load_gen).
  { unfold load_gen.
    apply gen_post_bind_any. intros cs. cbv zeta.
    apply gen_post_bind_any. intros weekly.
    apply gen_post_bind_any. intros cohorts.
    eapply gen_post_bind.
    - apply gen_post_mapM_Forall2. exact generateMockTrendPoint_ok.
    - intros trend Htrend. apply gen_post_ret. exact Htrend. }
  apply (H src O Hsrc).
Qed.

(** mockRiskTrend holds 12 points labelled W1 to W12; every delinquency
    probability lies between 0.2 and 0.3 (the 20-30% band its comment
    names) and every average risk score between 48 and 52. *)
Theorem X_mockRiskTrend_band (src : nat -> Q) :
  unit_draws src ->
  Forall2 mockTrendPoint_ok (map Z.of_nat (seq 0 12)) (ex_mockRiskTrend (load src)).
Proof. exact (load_mockRiskTrend_ok src). Qed.

Lemma X_mockRiskTrend_band_witness :
  Forall2 mockTrendPoint_ok (map Z.of_nat (seq 0 12))
    (ex_mockRiskTrend (load (fun _ => 1 # 2))).
Proof. apply (X_mockRiskTrend_band (fun _ => 1 # 2)). exact half_unit_draws. Defined.

End ModuleLoad.

(** ** AlertsPage handlers *)

Section AlertsHandlers.

Import BackendApi Pages AlertsPage.

Lemma alertCustomers_In customers riskFilter statusFilter
    (statuses : gmap string InterventionStatus) (c : CustomerRiskItem) :
  In c (alertCustomers customers riskFilter statusFilter statuses)
  <-> In c customers /\ listed riskFilter statusFilter statuses c = true.
Proof.
  rewrite alertCustomers_filter_sort, List.filter_In.
  split.
  - intros [Hin Hf].
    apply (Permutation_in _ (sort_Permutation _ _)) in Hin.
    apply List.filter_In in Hin as [Hin Ha].
    split; [exact Hin|]. unfold listed. now rewrite Ha, <- andb_assoc.
  - intros [Hin Hl]. unfold listed in Hl.
    rewrite <- andb_assoc in Hl. apply andb_true_iff in Hl as [Ha Hf].
    split; [|exact Hf].
    apply (Permutation_in _ (Permutation_sym (sort_Permutation _ _))).
    apply List.filter_In. now split.
Qed.

Lemma getStatus_insert_same (m : gmap string InterventionStatus) (c : CustomerRiskItem)
    (s : InterventionStatus) :
  getStatus (<[customer_id c := s]> m) c = s.
Proof. unfold getStatus. now rewrite lookup_insert_eq. Qed.

Lemma getStatus_insert_other (m : gmap string InterventionStatus)
    (c c' : CustomerRiskItem) (s : InterventionStatus) :
  customer_id c' <> customer_id c ->
  getStatus (<[customer_id c := s]> m) c' = getStatus m c'.
Proof. intros Hne. unfold getStatus. rewrite lookup_insert_ne; [reflexivity|auto]. Qed.

Lemma handleSendOffer_on_ok (rt : runtime) (post : Js.value -> fetched)
    (st : state) (c : CustomerRiskItem) :
  selectedCustomer st = Some c ->
  isSending st = false ->
  post (offerBody st c) = RespondedOk ->
  handleSendOffer rt post st
  = (set_isSending false
       (raise_toast
          {| t_kind := toast_success;
             t_title := "Intervention offer sent to " +:+ customer_id c;
             t_description :=
               Some ("Type: " +:+ selectedIntervention st +:+ " · To: "
                     +:+ FIXED_TO_EMAIL) |}
          (set_officerNotes EmptyString
             (set_emailModalOpen false
                (set_interventionStatuses
                   (fun prev => <[customer_id c := offered]> prev) st)))),
     [offerBody st c]).
Proof.
  intros Hsel Hsending Hpost. unfold handleSendOffer.
  rewrite Hsel, Hsending. cbv zeta. now rewrite Hpost.
Qed.

Lemma handleSendOffer_on_error (rt : runtime) (post : Js.value -> fetched)
    (st : state) (c : CustomerRiskItem) (errorText : string) :
  selectedCustomer st = Some c ->
  isSending st = false ->
  post (offerBody st c) = RespondedError errorText ->
  handleSendOffer rt post st
  = (set_isSending false
       (raise_toast
          {| t_kind := toast_error;
             t_title := "Unable to send intervention email";
             t_description :=
               Some (if String.eqb errorText EmptyString
                     then "Email send failed" else errorText) |} st),
     [offerBody st c]).
Proof.
  intros Hsel Hsending Hpost. unfold handleSendOffer.
  rewrite Hsel, Hsending. cbv zeta. now rewrite Hpost.
Qed.

(** A confirmed send that the relay answers with an ok response: the
    customer's status becomes offered, the modal closes, the notes are
    cleared, one success toast is raised, exactly one body is posted, and
    the statuses of all other customer ids are kept. *)
Theorem X_handleSendOffer_success (rt : runtime) (post : Js.value -> fetched)
    (st : state) (c : CustomerRiskItem) :
  selectedCustomer st = Some c ->
  isSending st = false ->
  post (offerBody st c) = RespondedOk ->
  let st' := fst (handleSendOffer rt post st) in
  snd (handleSendOffer rt post st) = [offerBody st c]
  /\ getStatus (interventionStatuses st') c = offered
  /\ (forall c', customer_id c' <> customer_id c ->
        getStatus (interventionStatuses st') c'
        = getStatus (interventionStatuses st) c')
  /\ emailModalOpen st' = false
  /\ officerNotes st' = EmptyString
  /\ isSending st' = false
  /\ exists t, toasts st' = toasts st ++ [t] /\ t_kind t = toast_success.
Proof.
  intros Hsel Hsending Hpost. cbv zeta.
  rewrite (handleSendOffer_on_ok rt post st c Hsel Hsending Hpost). cbn.
  repeat split.
  - apply getStatus_insert_same.
  - intros c' Hne. now apply getStatus_insert_other.
  - eexists. split; reflexivity.
Qed.

(** A send that fails, by an answer that is not ok or by a rejected fetch,
    changes no status, leaves the modal and the notes as they were, raises
    one error toast, and still resets isSending. An answer that is not ok
    shows the relay's text, or "Email send failed" when that text is empty. *)
Theorem X_handleSendOffer_failure (rt : runtime) (post : Js.value -> fetched)
    (st : state) (c : CustomerRiskItem) :
  selectedCustomer st = Some c ->
  isSending st = false ->
  post (offerBody st c) <> RespondedOk ->
  let st' := fst (handleSendOffer rt post st) in
  interventionStatuses st' = interventionStatuses st
  /\ emailModalOpen st' = emailModalOpen st
  /\ officerNotes st' = officerNotes st
  /\ isSending st' = false
  /\ exists description,
       toasts st'
       = toasts st ++ [ {| t_kind := toast_error;
                           t_title := "Unable to send intervention email";
                           t_description := Some description |} ]
       /\ match post (offerBody st c) with
          | RespondedError errorText =>
              description = if String.eqb errorText EmptyString
                            then "Email send failed" else errorText
          | FetchRejected e => description = message_or rt "Email send failed" e
          | RespondedOk => False
          end.
Proof.
  intros Hsel Hsending Hpost. cbv zeta.
  unfold handleSendOffer. rewrite Hsel, Hsending. cbv zeta.
  destruct (post (offerBody st c)) as [|errorText|e]; [contradiction| |]; cbn;
    repeat split; eexists; split; reflexivity.
Qed.

Lemma X_handleSendOffer_success_witness :
  let st' := fst (handleSendOffer standard_runtime (fun _ => RespondedOk) sample_state) in
  snd (handleSendOffer standard_runtime (fun _ => RespondedOk) sample_state)
    = [offerBody sample_state sample_customer]
  /\ getStatus (interventionStatuses st') sample_customer = offered
  /\ (forall c', customer_id c' <> customer_id sample_customer ->
        getStatus (interventionStatuses st') c'
        = getStatus (interventionStatuses sample_state) c')
  /\ emailModalOpen st' = false
  /\ officerNotes st' = EmptyString
  /\ isSending st' = false
  /\ exists t, toasts st' = toasts sample_state ++ [t] /\ t_kind t = toast_success.
Proof.
  apply (X_handleSendOffer_success standard_runtime (fun _ => RespondedOk)
           sample_state sample_customer); reflexivity.
Defined.

Lemma X_handleSendOffer_failure_witness :
  let post := fun _ : Js.value => RespondedError "Missing SMTP configuration in .env" in
  let st' := fst (handleSendOffer standard_runtime post sample_state) in
  interventionStatuses st' = interventionStatuses sample_state
  /\ emailModalOpen st' = emailModalOpen sample_state
  /\ officerNotes st' = officerNotes sample_state
  /\ isSending st' = false
  /\ exists description,
       toasts st'
       = toasts sample_state ++ [ {| t_kind := toast_error;
                                     t_title := "Unable to send intervention email";
                                     t_description := Some description |} ]
       /\ match post (offerBody sample_state sample_customer) with
          | RespondedError errorText =>
              description = if String.eqb errorText EmptyString
                            then "Email send failed" else errorText
          | FetchRejected e =>
              description = message_or standard_runtime "Email send failed" e
          | RespondedOk => False
          end.
Proof.
  apply (X_handleSendOffer_failure standard_runtime
           (fun _ => RespondedError "Missing SMTP configuration in .env")
           sample_state sample_customer);
    [reflexivity | reflexivity | discriminate].
Defined.

(** *** The page against the relay *)

Lemma sendIntervention_accepted (env : gmap string string)
    (provider : EmailServer.transportOptions -> EmailServer.mail -> EmailServer.sendResult)
    (reqBody : Js.value) (messageId : Js.value) :
  EmailServer.hasMissingSmtpConfig env = false ->
  Forall (fun k => Js.truthy (Js.get reqBody k) = true) EmailServer.required_fields ->
  (forall t m, provider t m = EmailServer.Sent messageId) ->
  EmailServer.status (EmailServer.response (EmailServer.sendIntervention env provider reqBody))
    = 200
  /\ exists t m,
       EmailServer.sendMail_calls (EmailServer.sendIntervention env provider reqBody)
         = [(t, m)]
       /\ EmailServer.m_to m = EmailServer.FIXED_TO_ADDRESS env.
Proof.
  intros Hcfg Hfields Hprov.
  unfold EmailServer.required_fields in Hfields.
  inversion Hfields as [|? ? H1 Hf1]; subst.
  inversion Hf1 as [|? ? H2 Hf2]; subst.
  inversion Hf2 as [|? ? H3 Hf3]; subst.
  inversion Hf3 as [|? ? H4 _]; subst.
  unfold EmailServer.sendIntervention.
  rewrite Hcfg, !get_or_empty, H1, H2, H3, H4. cbn [negb orb].
  rewrite Hprov. cbn. split; [reflexivity|]. eexists _, _. split; reflexivity.
Qed.

Lemma offerBody_fields (st : state) (c : CustomerRiskItem) :
  Js.get (offerBody st c) "customerId" = Js.Str (customer_id c)
  /\ Js.get (offerBody st c) "customerName" = Js.Str (customer_id c)
  /\ Js.get (offerBody st c) "selectedIntervention" = Js.Str (selectedIntervention st)
  /\ Js.get (offerBody st c) "topSignal"
     = match drilldownMap st !! customer_id c with
       | Some d => match first_key (contributing_features d) with
                   | Some s => Js.Str s
                   | None => Js.Undefined
                   end
       | None => Js.Str "N/A"
       end.
Proof.
  unfold offerBody.
  destruct (drilldownMap st !! customer_id c) as [d|];
    [destruct (first_key (contributing_features d))|]; repeat split.
Qed.

Lemma truthy_Str (s : string) : s <> EmptyString -> Js.truthy (Js.Str s) = true.
Proof.
  intros Hne. simpl. destruct (String.eqb_spec s EmptyString); [contradiction|reflexivity].
Qed.

(** End to end. With a configured relay whose provider accepts and whose
    body parser passes the posted body on as it was sent (it is within the
    100 kB limit), a customer with a non-empty id, a chosen intervention,
    and a top signal to name (no drilldown loaded yet, or one with a first
    feature), confirming the offer makes the relay call sendMail once,
    addressed to its fixed recipient, and leaves the customer in status
    offered. [wire] is the request that carries the JSON text of a body. *)
Theorem X_sendOffer_through_relay {Req : Type} (rt : runtime)
    (wire : Js.value -> Req) (express_json : Req -> EmailServer.parsed)
    (env : gmap string string)
    (provider : EmailServer.transportOptions -> EmailServer.mail -> EmailServer.sendResult)
    (stringify : Js.value -> string) (messageId : Js.value)
    (st : state) (c : CustomerRiskItem) :
  EmailServer.hasMissingSmtpConfig env = false ->
  (forall t m, provider t m = EmailServer.Sent messageId) ->
  selectedCustomer st = Some c ->
  isSending st = false ->
  customer_id c <> EmptyString ->
  selectedIntervention st <> EmptyString ->
  Js.truthy (Js.get (offerBody st c) "topSignal") = true ->
  express_json (wire (offerBody st c)) = EmailServer.Passed (offerBody st c) ->
  let relay := fun body =>
    relayAnswer stringify
      (EmailServer.response (EmailServer.app express_json env provider (wire body))) in
  getStatus (interventionStatuses (fst (handleSendOffer rt relay st))) c = offered
  /\ exists t m,
       EmailServer.sendMail_calls
         (EmailServer.app express_json env provider (wire (offerBody st c))) = [(t, m)]
       /\ EmailServer.m_to m = EmailServer.FIXED_TO_ADDRESS env.
Proof.
  intros Hcfg Hprov Hsel Hsending Hid Hint Hsig Hparse relay.
  destruct (offerBody_fields st c) as (F1 & F2 & F3 & _).
  destruct (sendIntervention_accepted env provider (offerBody st c) messageId Hcfg)
    as [Hstatus Hcalls].
  - unfold EmailServer.required_fields.
    repeat constructor; rewrite ?F1, ?F2, ?F3; auto using truthy_Str.
  - exact Hprov.
  - rewrite (app_passed express_json env provider _ _ Hparse).
    split; [|exact Hcalls].
    rewrite (handleSendOffer_on_ok rt relay st c Hsel Hsending).
    + cbn. apply getStatus_insert_same.
    + subst relay. cbv beta.
      rewrite (app_passed express_json env provider _ _ Hparse).
      unfold relayAnswer. now rewrite Hstatus.
Qed.

Lemma X_sendOffer_through_relay_witness :
  let wire := fun body => {| EmailServer.byteLength := 130; EmailServer.content := body |} in
  let relay := fun body =>
    relayAnswer Js.toString
      (EmailServer.response
         (EmailServer.app EmailServer.default_json EmailServer.sample_env
            EmailServer.accepting_provider (wire body))) in
  getStatus (interventionStatuses (fst (handleSendOffer standard_runtime relay sample_state)))
    sample_customer = offered
  /\ exists t m,
       EmailServer.sendMail_calls
         (EmailServer.app EmailServer.default_json EmailServer.sample_env
            EmailServer.accepting_provider (wire (offerBody sample_state sample_customer)))
       = [(t, m)]
       /\ EmailServer.m_to m = EmailServer.FIXED_TO_ADDRESS EmailServer.sample_env.
Proof.
  apply (X_sendOffer_through_relay standard_runtime
           (fun body => {| EmailServer.byteLength := 130; EmailServer.content := body |})
           EmailServer.default_json EmailServer.sample_env
           EmailServer.accepting_provider Js.toString
           (Js.Str "<id-1@relay.example.com>") sample_state sample_customer);
    try reflexivity; discriminate.
Defined.



(** When the relay's body parser refuses the posted body (officer notes that
    take it over 100 kB are answered 413), nothing is sent, the page shows
    the parser's error page in an error toast and the customer's status is
    unchanged. *)
Lemma sendOffer_refused_by_parser {Req : Type} (rt : runtime)
    (wire : Js.value -> Req) (express_json : Req -> EmailServer.parsed)
    (env : gmap string string)
    (provider : EmailServer.transportOptions -> EmailServer.mail -> EmailServer.sendResult)
    (stringify : Js.value -> string)
    (st : state) (c : CustomerRiskItem) (code : Z) (page : string) :
  selectedCustomer st = Some c ->
  isSending st = false ->
  express_json (wire (offerBody st c)) = EmailServer.Refused code page ->
  ~ (200 <= code <= 299) ->
  let relay := fun body =>
    relayAnswer stringify
      (EmailServer.response (EmailServer.app express_json env provider (wire body))) in
  let st' := fst (handleSendOffer rt relay st) in
  EmailServer.sendMail_calls
    (EmailServer.app express_json env provider (wire (offerBody st c))) = []
  /\ interventionStatuses st' = interventionStatuses st
  /\ toasts st'
     = toasts st ++ [ {| t_kind := toast_error;
                         t_title := "Unable to send intervention email";
                         t_description :=
                           Some (if String.eqb page EmptyString
                                 then "Email send failed" else page) |} ].
Proof.
  intros Hsel Hsending Hparse Hcode relay st'.
  pose proof (app_refused express_json env provider _ code page Hparse) as Hrej.
  split; [now rewrite Hrej|].
  subst st'.
  rewrite (handleSendOffer_on_error rt relay st c page Hsel Hsending).
  - cbn. repeat split.
  - subst relay. cbv beta. rewrite Hrej. unfold relayAnswer.
    cbn [EmailServer.response EmailServer.status EmailServer.body].
    destruct ((200 <=? code) && (code <=? 299)) eqn:E; [|reflexivity].
    apply andb_true_iff in E as [E1 E2].
    apply Z.leb_le in E1. apply Z.leb_le in E2. lia.
Qed.

(** After an offer went through, the customer is gone from the table
    filtered on status none (Pending), and is listed under status offered
    if it is a fetched customer at or above 0.3 that passes the risk
    filter. *)
Theorem X_offered_customer_changes_view (rt : runtime) (post : Js.value -> fetched)
    (st : state) (c : CustomerRiskItem) :
  selectedCustomer st = Some c ->
  isSending st = false ->
  post (offerBody st c) = RespondedOk ->
  In c (customers st) ->
  (0.3 <= risk_probability c)%Q ->
  matches_risk (riskFilter st) c = true ->
  let st' := fst (handleSendOffer rt post st) in
  ~ In c (alertRows (set_statusFilter "none" st'))
  /\ In c (alertRows (set_statusFilter "offered" st')).
Proof.
  intros Hsel Hsending Hpost Hin Hp Hrisk st'. subst st'.
  rewrite (handleSendOffer_on_ok rt post st c Hsel Hsending Hpost).
  unfold alertRows.
  cbn [fst customers riskFilter statusFilter interventionStatuses set_statusFilter
       set_isSending raise_toast set_officerNotes set_emailModalOpen
       set_interventionStatuses].
  split.
  - rewrite alertCustomers_In, listed_iff. intros (_ & _ & _ & [Hall|Hstatus]).
    + discriminate Hall.
    + destruct Hstatus as (s & Hs & Hname).
      rewrite getStatus_insert_same in Hs. inversion Hs; subst s.
      discriminate Hname.
  - apply alertCustomers_In. split; [exact Hin|].
    apply listed_iff. split; [exact Hp|]. split.
    + unfold matches_risk in Hrisk. apply orb_true_iff in Hrisk.
      rewrite !String.eqb_eq in Hrisk. exact Hrisk.
    + right. exists offered. now rewrite getStatus_insert_same.
Qed.

Lemma X_offered_customer_changes_view_witness :
  let st' := fst (handleSendOffer standard_runtime (fun _ => RespondedOk) sample_state) in
  ~ In sample_customer (alertRows (set_statusFilter "none" st'))
  /\ In sample_customer (alertRows (set_statusFilter "offered" st')).
Proof.
  apply (X_offered_customer_changes_view standard_runtime (fun _ => RespondedOk)
           sample_state sample_customer); try reflexivity.
  - simpl. auto.
  - discriminate.
Defined.

(** *** The drilldown cache *)

Lemma has_drilldown_false (st : state) (customerId : string) :
  drilldownMap st !! customerId = None -> Js.inherited customerId = false ->
  has_drilldown st customerId = false.
Proof. intros Hmiss Hown. unfold has_drilldown. now rewrite Hmiss. Qed.

(** An id that names a member of [Object.prototype] passes the guard with
    nothing stored for it: its drilldown is never fetched. *)
Lemma ensureDrilldown_inherited_id (rt : runtime)
    (fetchDrilldown : string -> CustomerDrilldown + exn)
    (customerId : string) (st : state) :
  Js.inherited customerId = true ->
  ensureDrilldown rt fetchDrilldown customerId st = (st, []).
Proof.
  intros Hin. unfold ensureDrilldown, has_drilldown.
  rewrite Hin. now destruct (drilldownMap st !! customerId).
Qed.

(** For a customer id that is not the name of a member of
    [Object.prototype] and has no drilldown stored: a drilldown that is
    fetched successfully is kept under the id without touching the other
    entries, names the top signal (the first feature of the map), and is
    not fetched again. *)
Theorem X_ensureDrilldown_caches (rt : runtime)
    (fetchDrilldown fetchAgain : string -> CustomerDrilldown + exn)
    (customerId : string) (d : CustomerDrilldown) (st : state) :
  drilldownMap st !! customerId = None ->
  Js.inherited customerId = false ->
  fetchDrilldown customerId = inl d ->
  let st' := fst (ensureDrilldown rt fetchDrilldown customerId st) in
  snd (ensureDrilldown rt fetchDrilldown customerId st) = [customerId]
  /\ drilldownMap st' !! customerId = Some d
  /\ (forall other, other <> customerId ->
        drilldownMap st' !! other = drilldownMap st !! other)
  /\ getTopSignal st' customerId = first_key (contributing_features d)
  /\ error st' = error st
  /\ ensureDrilldown rt fetchAgain customerId st' = (st', []).
Proof.
  intros Hmiss Hown Hfetch. cbv zeta.
  assert (E : ensureDrilldown rt fetchDrilldown customerId st
              = (set_drilldownMap (fun prev => <[customerId := d]> prev) st,
                 [customerId]))
    by (unfold ensureDrilldown;
        now rewrite (has_drilldown_false st customerId Hmiss Hown), Hfetch).
  rewrite E. cbn [fst snd].
  set (st' := set_drilldownMap (fun prev => <[customerId := d]> prev) st).
  assert (Hhit : drilldownMap st' !! customerId = Some d)
    by (subst st'; cbn; apply lookup_insert_eq).
  repeat split.
  - exact Hhit.
  - intros other Hne. subst st'. cbn. now apply lookup_insert_ne.
  - unfold getTopSignal. now rewrite Hhit.
  - unfold ensureDrilldown, has_drilldown. now rewrite Hhit.
Qed.

Lemma X_ensureDrilldown_caches_witness :
  let fetch := fun _ : string => @inl CustomerDrilldown exn sample_drilldown in
  let st' := fst (ensureDrilldown standard_runtime fetch "CUST-7" sample_state) in
  snd (ensureDrilldown standard_runtime fetch "CUST-7" sample_state) = ["CUST-7"]
  /\ drilldownMap st' !! "CUST-7" = Some sample_drilldown
  /\ (forall other, other <> "CUST-7" ->
        drilldownMap st' !! other = drilldownMap sample_state !! other)
  /\ getTopSignal st' "CUST-7" = first_key (contributing_features sample_drilldown)
  /\ error st' = error sample_state
  /\ ensureDrilldown standard_runtime fetch "CUST-7" st' = (st', []).
Proof.
  apply (X_ensureDrilldown_caches standard_runtime
           (fun _ => inl sample_drilldown) (fun _ => inl sample_drilldown)
           "CUST-7" sample_drilldown sample_state); reflexivity.
Defined.

(** For a customer id that is not the name of a member of
    [Object.prototype] and has no drilldown stored: a drilldown fetch that
    fails stores nothing, the error message is shown, the top signal stays
    "Loading", and the next request for the same customer fetches again. *)
Theorem X_ensureDrilldown_failure (rt : runtime)
    (fetchDrilldown fetchAgain : string -> CustomerDrilldown + exn)
    (customerId : string) (e : exn) (st : state) :
  drilldownMap st !! customerId = None ->
  Js.inherited customerId = false ->
  fetchDrilldown customerId = inr e ->
  let st' := fst (ensureDrilldown rt fetchDrilldown customerId st) in
  drilldownMap st' = drilldownMap st
  /\ error st' = Some (message_or rt "Failed to load drilldown" e)
  /\ getTopSignal st' customerId = Some "Loading"
  /\ snd (ensureDrilldown rt fetchAgain customerId st') = [customerId].
Proof.
  intros Hmiss Hown Hfetch. cbv zeta.
  assert (E : ensureDrilldown rt fetchDrilldown customerId st
              = (set_error (Some (message_or rt "Failed to load drilldown" e)) st,
                 [customerId]))
    by (unfold ensureDrilldown;
        now rewrite (has_drilldown_false st customerId Hmiss Hown), Hfetch).
  rewrite E. cbn [fst snd].
  set (st' := set_error (Some (message_or rt "Failed to load drilldown" e)) st).
  assert (Hstill : drilldownMap st' !! customerId = None) by (subst st'; exact Hmiss).
  repeat split.
  - unfold getTopSignal. now rewrite Hstill.
  - unfold ensureDrilldown.
    rewrite (has_drilldown_false st' customerId Hstill Hown).
    destruct (fetchAgain customerId); reflexivity.
Qed.

Lemma X_ensureDrilldown_failure_witness :
  let fetch := fun _ : string =>
    @inr CustomerDrilldown exn (ErrorObj "Error" "Customer not found") in
  let st' := fst (ensureDrilldown standard_runtime fetch "CUST-7" sample_state) in
  drilldownMap st' = drilldownMap sample_state
  /\ error st'
     = Some (message_or standard_runtime "Failed to load drilldown"
               (ErrorObj "Error" "Customer not found"))
  /\ getTopSignal st' "CUST-7" = Some "Loading"
  /\ snd (ensureDrilldown standard_runtime fetch "CUST-7" st') = ["CUST-7"].
Proof.
  apply (X_ensureDrilldown_failure standard_runtime
           (fun _ => inr (ErrorObj "Error" "Customer not found"))
           (fun _ => inr (ErrorObj "Error" "Customer not found"))
           "CUST-7" (ErrorObj "Error" "Customer not found") sample_state);
    reflexivity.
Defined.

End AlertsHandlers.

(** ** Other derived views *)

Section OtherViews.

Import BackendApi Pages ExplainabilityPage.

Lemma In_firstn_In {A : Type} (n : nat) (l : list A) (x : A) :
  In x (firstn n l) -> In x l.
Proof.
  revert n. induction l as [|a l IH]; intros [|n] H; try contradiction.
  cbn [firstn] in H. destruct H as [<-|H]; [now left | right; eauto].
Qed.

Lemma In_skipn_In {A : Type} (n : nat) (l : list A) (x : A) :
  In x (skipn n l) -> In x l.
Proof.
  revert n. induction l as [|a l IH]; intros [|n] H; try contradiction; auto.
  cbn [skipn] in H. right. eauto.
Qed.

Lemma StronglySorted_firstn {A : Type} (R : A -> A -> Prop) (n : nat) (l : list A) :
  StronglySorted R l -> StronglySorted R (firstn n l).
Proof.
  intros Hs. revert n. induction Hs as [|a l Hs IH Hall]; intros [|n]; cbn [firstn];
    try constructor.
  - apply IH.
  - apply List.Forall_forall. intros x Hx.
    rewrite List.Forall_forall in Hall. apply Hall. now apply (In_firstn_In n).
Qed.

Lemma StronglySorted_firstn_skipn {A : Type} (R : A -> A -> Prop) (n : nat) (l : list A) :
  StronglySorted R l ->
  forall x y, In x (firstn n l) -> In y (skipn n l) -> R x y.
Proof.
  intros Hs. revert n. induction Hs as [|a l Hs IH Hall]; intros n x y Hx Hy.
  - destruct n; contradiction.
  - destruct n as [|n]; [contradiction|].
    cbn [firstn skipn] in Hx, Hy. destruct Hx as [<-|Hx].
    + rewrite List.Forall_forall in Hall. apply Hall.
      now apply (In_skipn_In n).
    + now apply (IH n).
Qed.

(** topFlagged shows at most 20 customers, all at or above 0.5, in order of
    descending probability, and they are the highest: together with the
    customers left out they make up exactly those at or above 0.5, and none
    left out has a higher probability than one shown. When at most 20
    qualify, nobody is left out. *)
Theorem X_topFlagged_highest_twenty (customers : list CustomerRiskItem) :
  let shown := topFlagged customers in
  (length shown <= 20)%nat
  /\ Sorted (fun a b => (risk_probability a >= risk_probability b)%Q) shown
  /\ Forall (fun c => In c customers /\ (0.5 <= risk_probability c)%Q) shown
  /\ exists left_out,
       Permutation (shown ++ left_out) (List.filter flagged customers)
       /\ (forall x y, In x shown -> In y left_out ->
             (risk_probability y <= risk_probability x)%Q)
       /\ ((length (List.filter flagged customers) <= 20)%nat -> left_out = []).
Proof.
  cbv zeta. unfold topFlagged, JsMore.slice0.
  set (sorted := Js.sort by_probability_desc (List.filter flagged customers)).
  assert (Hperm : Permutation sorted (List.filter flagged customers))
    by apply sort_Permutation.
  assert (Hss : StronglySorted (descending risk_probability) sorted).
  { apply (Sorted_StronglySorted (descending_trans risk_probability)).
    apply (sort_Sorted by_probability_desc risk_probability).
    exact by_probability_desc_key. }
  split; [apply firstn_le_length|]. split; [|split].
  - apply StronglySorted_Sorted. now apply StronglySorted_firstn.
  - apply List.Forall_forall. intros c Hc.
    apply (In_firstn_In 20) in Hc.
    apply (Permutation_in _ Hperm) in Hc.
    apply List.filter_In in Hc as [Hin Hf]. split; [exact Hin|].
    unfold flagged in Hf. now apply Qle_bool_iff.
  - exists (skipn 20 sorted). split; [|split].
    + now rewrite firstn_skipn.
    + intros x y Hx Hy.
      apply (StronglySorted_firstn_skipn _ 20 sorted Hss x y Hx Hy).
    + intros Hfew. apply skipn_all2.
      now rewrite (Permutation_length Hperm).
Qed.

End OtherViews.

Section DashboardViews.

Import MockData MockDataInit Inv DashboardPage PortfolioDriftPage.

Lemma pct_in_band (p : Q) :
  (0.2 <= p)%Q -> (p <= 0.3)%Q ->
  (20 <= Js.roundTo 1 (p * 100))%Q /\ (Js.roundTo 1 (p * 100) <= 30)%Q.
Proof.
  intros H1 H2. apply (roundTo_within 1 20 30); try reflexivity; lra.
Qed.

(** The dashboard's weekly trend, computed from mockRiskTrend, keeps the 12
    week labels in order and every percentage lies within the 20..30 range
    of the chart's axis. *)
Theorem X_dashboard_trend_within_axis (src : nat -> Q) :
  unit_draws src ->
  let series := trendWithPercentages (ex_mockRiskTrend (load src)) in
  map pp_week series
  = map (fun i => "W" +:+ Js.string_of_Z (Z.of_nat i + 1)) (seq 0 12)
  /\ Forall (fun p => (20 <= delinquency_probability_pct p)%Q
                      /\ (delinquency_probability_pct p <= 30)%Q) series.
Proof.
  intros Hsrc. cbv zeta.
  pose proof (load_mockRiskTrend_ok src Hsrc) as H.
  unfold trendWithPercentages. split.
  - rewrite List.map_map. cbn [pp_week].
    rewrite <- (List.map_map Z.of_nat (fun i => "W" +:+ Js.string_of_Z (i + 1))).
    apply Forall2_map_eq.
    eapply Forall2_impl; [exact H|]. intros i p Hp. apply Hp.
  - apply List.Forall_map.
    eapply Forall2_Forall_r; [exact H|].
    intros i p (_ & H1 & H2 & _). cbn [delinquency_probability_pct].
    now apply pct_in_band.
Qed.

Lemma X_dashboard_trend_within_axis_witness :
  let series := trendWithPercentages (ex_mockRiskTrend (load (fun _ => 1 # 2))) in
  map pp_week series
  = map (fun i => "W" +:+ Js.string_of_Z (Z.of_nat i + 1)) (seq 0 12)
  /\ Forall (fun p => (20 <= delinquency_probability_pct p)%Q
                      /\ (delinquency_probability_pct p <= 30)%Q) series.
Proof. apply (X_dashboard_trend_within_axis (fun _ => 1 # 2)). exact half_unit_draws. Defined.

Lemma max_ge_l (a b : Q) : (a <= Js.max a b)%Q.
Proof.
  unfold Js.max. destruct (Qle_bool a b) eqn:H.
  - now apply Qle_bool_iff.
  - apply Qle_refl.
Qed.

Lemma max_le (a b c : Q) : (a <= c)%Q -> (b <= c)%Q -> (Js.max a b <= c)%Q.
Proof. intros Ha Hb. unfold Js.max. now destruct (Qle_bool a b). Qed.

(** The opacity of a heatmap cell is never below 0.1, and for a count
    between 0 and the summary's total it is never above 1; the division is
    always by at least 1. *)
Theorem X_cellAlpha_bounds (val : Z) (s : PortfolioSummary) :
  0 <= val <= total_customers s ->
  (0.1 <= cellAlpha val (Some s))%Q /\ (cellAlpha val (Some s) <= 1)%Q.
Proof.
  intros [Hlo Hhi]. unfold cellAlpha. split; [apply max_ge_l|].
  apply max_le; [discriminate|].
  unfold intensity. set (den := Js.max 1 (inject_Z (total_or_1 (Some s)))).
  assert (Hden1 : (1 <= den)%Q) by apply max_ge_l.
  assert (Hval : (inject_Z val <= den)%Q).
  { subst den. unfold Js.max, total_or_1.
    destruct (total_customers s =? 0) eqn:Hz.
    - apply Z.eqb_eq in Hz. assert (val = 0) by lia. subst val. vm_compute. discriminate.
    - destruct (Qle_bool 1 (inject_Z (total_customers s))) eqn:Hone.
      + now rewrite <- Zle_Qle.
      + assert (Hlt : (inject_Z (total_customers s) < 1)%Q)
          by (apply Qnot_le_lt; rewrite <- Qle_bool_iff; congruence).
        change 1%Q with (inject_Z 1) in Hlt. rewrite <- Zlt_Qlt in Hlt.
        apply Z.eqb_neq in Hz. lia. }
  apply Qle_shift_div_r; lra.
Qed.

Lemma X_cellAlpha_bounds_witness :
  let s := {| low_risk_count := 70; medium_risk_count := 20; high_risk_count := 10;
              total_customers := 100; generated_at := "2025-01-01T00:00:00Z" |} in
  (0.1 <= cellAlpha 35 (Some s))%Q /\ (cellAlpha 35 (Some s) <= 1)%Q.
Proof.
  apply (X_cellAlpha_bounds 35
           {| low_risk_count := 70; medium_risk_count := 20; high_risk_count := 10;
              total_customers := 100; generated_at := "2025-01-01T00:00:00Z" |}).
  cbn. lia.
Defined.

End DashboardViews.

(** ** The request layer, all operations *)

Section RequestLayerMore.

Import BackendApi.

Ltac unfold_ops :=
  unfold checkBackendHealth, getCustomerList, getCustomerData, predictRisk,
    getPortfolioSummary, getRiskTrend, getFeatureImportance, getPortfolioHeatmap,
    getCustomerRiskList, getCustomerDrilldown, predictAndSendIntervention.

(** Every operation is its fetch followed by one of the two try/catch
    shapes. *)
Lemma call_shape rt net op :
  exists input,
    call rt net op
    = after_fetch (fetchWithTimeout rt net input)
        (fun f => if reads_detail op
                  then catch_rethrow rt (fallback_of op) (try_detail f)
                  else catch_normalize rt (fallback_of op) (try_status f)).
Proof. destruct op; simpl; unfold_ops; eexists; reflexivity. Qed.

Lemma fetchWithTimeout_uniform rt net (f : network) input :
  (forall req, net req = f) ->
  fetchWithTimeout rt net input = fetchWithTimeout rt (fun _ => f) input.
Proof. intros H. unfold fetchWithTimeout. now rewrite H. Qed.

(** The success path. Whatever the operation, a 2xx response that arrives
    before the deadline and whose body parses is returned as parsed; the
    timer is cleared and the request is not aborted. *)
Theorem X_call_success (rt : runtime) (net : Request -> network) (op : operation)
    (t : Z) (r : Response) (v : Js.value) :
  (forall req, net req = Responds t r) ->
  t < REQUEST_TIMEOUT_MS ->
  ok r = true ->
  body r = inl v ->
  call rt net op
  = {| outcome := inl v; settled_at := t; timer_state := Cleared; aborted := false |}.
Proof.
  intros Hnet Ht Hok Hbody.
  destruct (call_shape rt net op) as [input ->].
  unfold after_fetch, fetchWithTimeout. rewrite Hnet.
  apply Z.ltb_lt in Ht. rewrite Ht. cbn [outcome settled_at timer_state aborted].
  unfold try_detail, try_status, json. rewrite Hok, Hbody. cbn [negb].
  now destruct (reads_detail op).
Qed.

Lemma X_call_success_witness :
  call standard_runtime
    (fun _ => Responds 35 {| status := 200; body := inl (Js.Arr [Js.Str "CUST-7"]) |})
    (GetCustomerList (Some 200))
  = {| outcome := inl (Js.Arr [Js.Str "CUST-7"]); settled_at := 35;
       timer_state := Cleared; aborted := false |}.
Proof.
  apply (X_call_success standard_runtime
           (fun _ => Responds 35 {| status := 200; body := inl (Js.Arr [Js.Str "CUST-7"]) |})
           (GetCustomerList (Some 200)) 35
           {| status := 200; body := inl (Js.Arr [Js.Str "CUST-7"]) |}
           (Js.Arr [Js.Str "CUST-7"])); reflexivity.
Defined.

(** fetchWithTimeout never waits beyond the deadline, whatever the
    network does: it settles at 8000 ms at the latest, its timer is then
    cleared or fired, never pending, and the request was aborted exactly
    when it settled at the deadline. This bounds the wait for the response,
    not the reading of its body that an operation does afterwards. *)
Theorem X_fetchWithTimeout_within_deadline (rt : runtime) (net : Request -> network)
    (input : Request) :
  settled_at (fetchWithTimeout rt net input) <= REQUEST_TIMEOUT_MS
  /\ timer_state (fetchWithTimeout rt net input) <> Pending
  /\ (aborted (fetchWithTimeout rt net input) = true
      <-> settled_at (fetchWithTimeout rt net input) = REQUEST_TIMEOUT_MS).
Proof.
  unfold fetchWithTimeout.
  destruct (net input) as [t r|t e|];
    try (destruct (t <? REQUEST_TIMEOUT_MS) eqn:Ht;
         [apply Z.ltb_lt in Ht|]);
    cbn [settled_at timer_state aborted clearTimeout];
    (split; [lia|split; [discriminate|split; intros H; try reflexivity;
                                             try discriminate H; lia]]).
Qed.

(** The seven operations that normalize every failure only ever throw an
    Error carrying the timeout text or their own fallback text: neither the
    HTTP status nor anything the server or the network said reaches the
    caller. *)
Theorem X_normalizing_call_errors (rt : runtime) (net : Request -> network)
    (op : operation) (e : exn) :
  reads_detail op = false ->
  outcome (call rt net op) = inr e ->
  e = ErrorObj "Error" TIMEOUT_MESSAGE \/ e = ErrorObj "Error" (fallback_of op).
Proof.
  intros Hop.
  destruct (call_shape rt net op) as [input ->]. rewrite Hop.
  unfold after_fetch. cbn [outcome].
  destruct (try_status _) as [v|err]; cbn [catch_normalize]; [discriminate|].
  intros [= <-]. unfold normalizeFetchError.
  destruct (_ && _); [now left|]. destruct (_ && _); [now left | now right].
Qed.

Lemma X_normalizing_call_errors_witness :
  ErrorObj "Error" "Failed to load portfolio summary"
  = ErrorObj "Error" TIMEOUT_MESSAGE
  \/ ErrorObj "Error" "Failed to load portfolio summary"
     = ErrorObj "Error" (fallback_of GetPortfolioSummary).
Proof.
  apply (X_normalizing_call_errors standard_runtime (fun _ => Responds 120 not_found)
           GetPortfolioSummary); reflexivity.
Defined.

(** A response that arrives at or after the deadline is discarded: the
    call ends exactly as against a backend that never answers. *)
Theorem X_late_response_is_timeout (rt : runtime) (net : Request -> network)
    (op : operation) (t : Z) (r : Response) :
  (forall req, net req = Responds t r) ->
  REQUEST_TIMEOUT_MS <= t ->
  call rt net op = call rt silent_backend op.
Proof.
  intros Hnet Ht.
  assert (Hf : forall input,
             fetchWithTimeout rt net input = fetchWithTimeout rt silent_backend input).
  { intros input. unfold fetchWithTimeout, silent_backend. rewrite Hnet.
    apply Z.ltb_ge in Ht. now rewrite Ht. }
  destruct op; simpl; unfold_ops; now rewrite Hf.
Qed.

Lemma X_late_response_is_timeout_witness :
  call standard_runtime (fun _ => Responds 8000 not_found) (GetCustomerData "CUST-7")
  = call standard_runtime silent_backend (GetCustomerData "CUST-7").
Proof.
  apply (X_late_response_is_timeout standard_runtime (fun _ => Responds 8000 not_found)
           (GetCustomerData "CUST-7") 8000 not_found).
  - reflexivity.
  - unfold REQUEST_TIMEOUT_MS. lia.
Defined.

(** In the four operations that read the error body, a non-2xx response
    whose JSON body has no [detail], or an empty or otherwise falsy one, is
    reported as HTTP followed by the status code. *)
Theorem X_rethrowing_call_http_status (rt : runtime) (net : Request -> network)
    (op : operation) (t : Z) (r : Response) (v : Js.value) :
  reads_detail op = true ->
  (forall req, net req = Responds t r) ->
  t < REQUEST_TIMEOUT_MS ->
  ok r = false ->
  body r = inl v ->
  v <> Js.Null -> v <> Js.Undefined ->
  Js.truthy (Js.get v "detail") = false ->
  outcome (call rt net op)
  = inr (ErrorObj "Error" ("HTTP " +:+ Js.string_of_Z (status r))).
Proof.
  intros Hop Hnet Ht Hok Hbody Hnull Hundef Hfalsy.
  destruct (call_shape rt net op) as [input ->]. rewrite Hop.
  unfold after_fetch. cbn [outcome].
  rewrite (fetchWithTimeout_responds rt net input t r (Hnet input) Ht).
  unfold try_detail, json. rewrite Hok, Hbody. cbn [negb].
  assert (Hread : read_detail v = inl (Js.get v "detail"))
    by (destruct v; try reflexivity; contradiction).
  rewrite Hread. unfold Js.or. rewrite Hfalsy. reflexivity.
Qed.

Lemma X_rethrowing_call_http_status_witness :
  outcome (call standard_runtime
             (fun _ => Responds 120 {| status := 503; body := inl (Js.Obj []) |})
             (PredictRisk "CUST-7"))
  = inr (ErrorObj "Error" ("HTTP " +:+ Js.string_of_Z 503)).
Proof.
  apply (X_rethrowing_call_http_status standard_runtime
           (fun _ => Responds 120 {| status := 503; body := inl (Js.Obj []) |})
           (PredictRisk "CUST-7") 120 {| status := 503; body := inl (Js.Obj []) |}
           (Js.Obj [])); try reflexivity; discriminate.
Defined.

(** A fetch that the network rejects before the deadline (an Error other
    than the timeout sentinel): the four operations that read the error
    body rethrow the network's error as it is, the other seven replace it by
    their fallback text. *)
Theorem X_network_failure (rt : runtime) (net : Request -> network)
    (op : operation) (t : Z) (name message : string) :
  (forall req, net req = Rejects t (ErrorObj name message)) ->
  t < REQUEST_TIMEOUT_MS ->
  message <> "REQUEST_TIMEOUT" ->
  outcome (call rt net op)
  = inr (if reads_detail op then ErrorObj name message
         else ErrorObj "Error" (fallback_of op)).
Proof.
  intros Hnet Ht Hmsg.
  destruct (call_shape rt net op) as [input ->].
  unfold after_fetch, fetchWithTimeout. rewrite Hnet.
  apply Z.ltb_lt in Ht. rewrite Ht. cbn [outcome].
  destruct (reads_detail op); cbn; [reflexivity|].
  unfold normalizeFetchError. cbn.
  destruct (String.eqb_spec message "REQUEST_TIMEOUT"); [contradiction|reflexivity].
Qed.

Lemma X_network_failure_witness :
  outcome (call standard_runtime
             (fun _ => Rejects 15 (ErrorObj "TypeError" "Failed to fetch"))
             (GetRiskTrend))
  = inr (if reads_detail GetRiskTrend then ErrorObj "TypeError" "Failed to fetch"
         else ErrorObj "Error" (fallback_of GetRiskTrend)).
Proof.
  apply (X_network_failure standard_runtime
           (fun _ => Rejects 15 (ErrorObj "TypeError" "Failed to fetch"))
           GetRiskTrend 15 "TypeError" "Failed to fetch");
    [reflexivity | reflexivity | discriminate].
Defined.

End RequestLayerMore.

(** ** The relay, all requests *)

Section RelayMore.

Import EmailServer.

Lemma truthy_string_iff (o : option string) :
  truthy_string o = true <-> exists s, o = Some s /\ s <> EmptyString.
Proof.
  destruct o as [s|]; simpl.
  - destruct (String.eqb_spec s EmptyString) as [->|Hne]; simpl.
    + split; [discriminate|]. intros (s' & [= <-] & Hs). contradiction.
    + split; [|reflexivity]. intros _. now exists s.
  - split; [discriminate|]. intros (s & Hs & _). discriminate.
Qed.

(** The SMTP configuration counts as complete exactly when SMTP_HOST,
    SMTP_USER and SMTP_PASS are set and not empty: SMTP_FROM is optional,
    the sender falling back to SMTP_USER. *)
Theorem X_smtp_config_complete (env : gmap string string) :
  hasMissingSmtpConfig env = false
  <-> (exists h, env !! "SMTP_HOST" = Some h /\ h <> EmptyString)
      /\ (exists u, env !! "SMTP_USER" = Some u /\ u <> EmptyString)
      /\ (exists p, env !! "SMTP_PASS" = Some p /\ p <> EmptyString).
Proof.
  unfold hasMissingSmtpConfig, smtpConfig.
  cbn [host auth_of user pass from].
  rewrite <- !truthy_string_iff.
  unfold or_string.
  destruct (truthy_string (env !! "SMTP_HOST")) eqn:Hh;
  destruct (truthy_string (env !! "SMTP_USER")) eqn:Hu;
  destruct (truthy_string (env !! "SMTP_PASS")) eqn:Hp;
  destruct (truthy_string (env !! "SMTP_FROM")) eqn:Hf;
  cbn; rewrite ?Hu, ?Hf; cbn; intuition congruence.
Qed.

(** Whatever the configuration, the request and the provider, the relay
    calls sendMail at most once, and only ever for the fixed recipient
    (never empty) from the configured sender: nothing in the request can
    redirect the mail. *)
Theorem X_relay_single_fixed_recipient (env : gmap string string)
    (provider : transportOptions -> mail -> sendResult) (reqBody : Js.value) :
  (length (sendMail_calls (sendIntervention env provider reqBody)) <= 1)%nat
  /\ Forall (fun call =>
               m_to (snd call) = FIXED_TO_ADDRESS env
               /\ m_to (snd call) <> EmptyString
               /\ m_from (snd call) = from (smtpConfig env))
       (sendMail_calls (sendIntervention env provider reqBody)).
Proof.
  assert (Hto : FIXED_TO_ADDRESS env <> EmptyString).
  { unfold FIXED_TO_ADDRESS, or_string.
    destruct (truthy_string (env !! "FIXED_TO_ADDRESS")) eqn:Ht; [|discriminate].
    apply truthy_string_iff in Ht as (s & -> & Hs). exact Hs. }
  unfold sendIntervention.
  destruct (hasMissingSmtpConfig env); [split; [simpl; lia | constructor]|].
  destruct (_ || _); [split; [simpl; lia | constructor]|].
  cbv zeta.
  destruct (provider _ _); cbn [sendMail_calls length];
    (split; [lia | repeat constructor; exact Hto]).
Qed.



End RelayMore.
